(** * Command runner of deploy_kit: [deploy_kit/subprocess_utils.py]

    A shallow embedding of [run_command] and of the progress-indicator
    helpers it uses ([_select_frames], [_format_elapsed], [_ProgressLine],
    [_IdleProgressIndicator], the settings resolution), together with the
    pieces of the Python standard library whose behaviour the results depend
    on ([str.strip], [str.split], [textwrap.shorten], [subprocess.run]).

    Python strings are lists of code points; string literals are written as
    UTF-8 Rocq strings and decoded with [u].  Times are exact rationals
    standing for the float readings of [time.monotonic()].  The outside
    world (the child process, the clock, the thread scheduling) is an
    oracle record read by the model. *)

From Stdlib Require Import String Ascii List ZArith QArith Qround Qabs Bool Lia Lqa.
Import ListNotations.

Open Scope Z_scope.

(** ** Python text *)

Definition pystr := list Z.

(** UTF-8 decoding of a byte list into code points (well-formed input). *)
Fixpoint utf8_decode (bs : list Z) : pystr :=
  match bs with
  | [] => []
  | b0 :: rest =>
      if b0 <? 128 then b0 :: utf8_decode rest
      else if b0 <? 224 then
        match rest with
        | b1 :: r => ((b0 - 192) * 64 + (b1 - 128)) :: utf8_decode r
        | [] => []
        end
      else if b0 <? 240 then
        match rest with
        | b1 :: b2 :: r =>
            ((b0 - 224) * 4096 + (b1 - 128) * 64 + (b2 - 128)) :: utf8_decode r
        | _ => []
        end
      else
        match rest with
        | b1 :: b2 :: b3 :: r =>
            ((b0 - 240) * 262144 + (b1 - 128) * 4096 + (b2 - 128) * 64
             + (b3 - 128)) :: utf8_decode r
        | _ => []
        end
  end.

(** A Python string literal, written in UTF-8. *)
Definition u (s : string) : pystr :=
  utf8_decode (map (fun a => Z.of_nat (nat_of_ascii a)) (list_ascii_of_string s)).

Definition NL : pystr := [10].

Definition pystr_eqb (a b : pystr) : bool :=
  if list_eq_dec Z.eq_dec a b then true else false.

(** [str.isspace] on one code point (the characters Python's [str.split] and
    [str.strip] treat as whitespace). *)
Definition py_isspace (c : Z) : bool :=
  ((9 <=? c) && (c <=? 13)) || ((28 <=? c) && (c <=? 32)) || (c =? 133)
  || (c =? 160) || (c =? 5760) || ((8192 <=? c) && (c <=? 8202))
  || (c =? 8232) || (c =? 8233) || (c =? 8239) || (c =? 8287) || (c =? 12288).

Fixpoint lstrip (s : pystr) : pystr :=
  match s with
  | c :: r => if py_isspace c then lstrip r else s
  | [] => []
  end.

(** [s.strip()] *)
Definition py_strip (s : pystr) : pystr := rev (lstrip (rev (lstrip s))).

Fixpoint py_split_go (s : pystr) (cur : pystr) : list pystr :=
  match s with
  | [] => match cur with [] => [] | _ => [rev cur] end
  | c :: r =>
      if py_isspace c then
        match cur with
        | [] => py_split_go r []
        | _ => rev cur :: py_split_go r []
        end
      else py_split_go r (c :: cur)
  end.

(** [s.split()] *)
Definition py_split (s : pystr) : list pystr := py_split_go s [].

(** [sep.join(l)] *)
Fixpoint py_join (sep : pystr) (l : list pystr) : pystr :=
  match l with
  | [] => []
  | [x] => x
  | x :: r => x ++ sep ++ py_join sep r
  end.

(** [s.lower()] on the ASCII letters.  Python also lowers non-ASCII letters;
    the only one whose lower case is ASCII is KELVIN SIGN (U+212A, to [k]),
    and no word compared below with lowered text contains a [k], so these
    comparisons decide the same way. *)
Definition py_lower (s : pystr) : pystr :=
  map (fun c => if (65 <=? c) && (c <=? 90) then c + 32 else c) s.

(** Decimal digits of a non-negative integer, least significant first. *)
Fixpoint digits_rev (fuel : nat) (n : Z) : pystr :=
  match fuel with
  | O => []
  | S f => (48 + n mod 10) :: (if n <? 10 then [] else digits_rev f (n / 10))
  end.

(** [str(n)] for a Python [int]. *)
Definition py_str_int (n : Z) : pystr :=
  if n <? 0 then 45 :: rev (digits_rev (S (Z.to_nat (- n))) (- n))
  else rev (digits_rev (S (Z.to_nat n)) n).

(** [f"{n:02d}"] for a non-negative [int]. *)
Definition py_str_int02 (n : Z) : pystr :=
  let s := py_str_int n in
  if (length s <? 2)%nat then 48 :: s else s.

(** Value of a string of decimal digits. *)
Definition dec_value (s : pystr) : Z := fold_left (fun acc c => acc * 10 + (c - 48)) s 0.

Definition is_digit (c : Z) : bool := (48 <=? c) && (c <=? 57).

(** [s.rstrip()] *)
Definition py_rstrip (s : pystr) : pystr := rev (lstrip (rev s)).

(** [chunk.strip() == ''] *)
Definition is_blank (s : pystr) : bool :=
  match py_strip s with [] => true | _ => false end.

Definition zlen {A} (l : list A) : Z := Z.of_nat (length l).

(** ** [textwrap.shorten]

    [shorten(text, width, placeholder=...)] builds
    [TextWrapper(width=width, max_lines=1, placeholder=...)] and returns
    [w.fill(' '.join(text.strip().split()))].  The wrapper keeps its other
    defaults: no indent, [drop_whitespace=True], [break_long_words=True],
    [break_on_hyphens=True].  Its chunking regular expression
    [wordsep_re.split] depends on Unicode word classes; the model takes it
    as a parameter [split_chunks]. *)

Section TextWrap.

Variable split_chunks : pystr -> list pystr.

(** [text.rfind(ch, 0, stop)] *)
Fixpoint rfind_go (ch : Z) (s : pystr) (i best : Z) : Z :=
  match s with
  | [] => best
  | c :: r => rfind_go ch r (i + 1) (if c =? ch then i else best)
  end.

Definition py_rfind (ch : Z) (s : pystr) (stop : Z) : Z :=
  rfind_go ch (firstn (Z.to_nat stop) s) 0 (-1).

(** [TextWrapper._handle_long_word]; [chunks] lists the remaining chunks
    next one first (the source's [reversed_chunks] read from its end). *)
Definition handle_long_word (chunks cur_line : list pystr) (cur_len width : Z)
    : list pystr * list pystr :=
  let space_left := if width <? 1 then 1 else width - cur_len in
  match chunks with
  | [] => (chunks, cur_line)
  | chunk :: rest =>
      let end_ :=
        if zlen chunk >? space_left then
          let hyphen := py_rfind 45 chunk space_left in
          if (hyphen >? 0)
             && existsb (fun c => negb (c =? 45)) (firstn (Z.to_nat hyphen) chunk)
          then hyphen + 1 else space_left
        else space_left in
      (skipn (Z.to_nat end_) chunk :: rest,
       cur_line ++ [firstn (Z.to_nat end_) chunk])
  end.

(** The inner [while chunks:] loop taking the chunks that fit. *)
Fixpoint take_fitting (chunks cur_line : list pystr) (cur_len width : Z)
    : list pystr * list pystr * Z :=
  match chunks with
  | [] => ([], cur_line, cur_len)
  | c :: r =>
      if cur_len + zlen c <=? width
      then take_fitting r (cur_line ++ [c]) (cur_len + zlen c) width
      else (chunks, cur_line, cur_len)
  end.

(** [if chunks and len(chunks[-1]) > width: self._handle_long_word(...)];
    [cur_len = sum(map(len, cur_line))]. *)
Definition long_word_step (chunks cur_line : list pystr) (cur_len width : Z)
    : list pystr * list pystr * Z :=
  match chunks with
  | c :: _ =>
      if zlen c >? width then
        let '(chs, cl) := handle_long_word chunks cur_line cur_len width in
        (chs, cl, zlen (concat cl))
      else (chunks, cur_line, cur_len)
  | [] => (chunks, cur_line, cur_len)
  end.

(** [if self.drop_whitespace and cur_line and cur_line[-1].strip() == '':
    cur_len -= len(cur_line[-1]); del cur_line[-1]] *)
Definition drop_trailing_blank (cur_line : list pystr) (cur_len : Z) : list pystr * Z :=
  match rev cur_line with
  | last :: before =>
      if is_blank last then (rev before, cur_len - zlen last)
      else (cur_line, cur_len)
  | [] => (cur_line, cur_len)
  end.

(** The [while cur_line:] loop that appends the placeholder; [rline] is
    [cur_line] last chunk first.  [None] is the loop's [else] clause. *)
Fixpoint place_placeholder (rline : list pystr) (cur_len width : Z) (ph : pystr)
    : option pystr :=
  match rline with
  | [] => None
  | last :: before =>
      if negb (is_blank last) && (cur_len + zlen ph <=? width)
      then Some (concat (rev rline) ++ ph)
      else place_placeholder before (cur_len - zlen last) width ph
  end.

(** [TextWrapper._wrap_chunks] with [max_lines=1] (so the test
    [len(lines) + 1 < self.max_lines] is always false) and no indent. *)
Fixpoint wrap_loop (fuel : nat) (width : Z) (ph : pystr)
    (chunks lines : list pystr) : list pystr :=
  match fuel with
  | O => lines
  | S f =>
    match chunks with
    | [] => lines
    | _ =>
      let chunks :=
        match lines, chunks with
        | _ :: _, c :: r => if is_blank c then r else chunks
        | _, _ => chunks
        end in
      let '(chunks, cur_line, cur_len) := take_fitting chunks [] 0 width in
      let '(chunks, cur_line, cur_len) := long_word_step chunks cur_line cur_len width in
      let '(cur_line, cur_len) := drop_trailing_blank cur_line cur_len in
      match cur_line with
      | [] => wrap_loop f width ph chunks lines
      | _ =>
        let rest_blank :=
          match chunks with
          | [] => true
          | [c] => is_blank c
          | _ => false
          end in
        if rest_blank && (cur_len <=? width) then
          wrap_loop f width ph chunks (lines ++ [concat cur_line])
        else
          match place_placeholder (rev cur_line) cur_len width ph with
          | Some l => lines ++ [l]
          | None =>
              match rev lines with
              | prev :: before =>
                  let prev_line := py_rstrip prev in
                  if zlen prev_line + zlen ph <=? width
                  then rev before ++ [prev_line ++ ph]
                  else lines ++ [lstrip ph]
              | [] => lines ++ [lstrip ph]
              end
          end
      end
    end
  end.

(** [' '.join(text.strip().split())] *)
Definition normalize_ws (text : pystr) : pystr := py_join [32] (py_split (py_strip text)).

(** [textwrap.shorten(text, width=width, placeholder=ph)] *)
Definition shorten (text : pystr) (width : Z) (ph : pystr) : pystr :=
  let t := normalize_ws text in
  py_join NL (wrap_loop (S (length t)) width ph (split_chunks t) []).

End TextWrap.

(** The default placeholder of [textwrap.shorten]. *)
Definition default_placeholder : pystr := u " [...]".

(** The whitespace of [textwrap] ([_whitespace = '\t\n\x0b\x0c\r ']). *)
Definition tw_ws (c : Z) : bool :=
  (c =? 9) || (c =? 10) || (c =? 11) || (c =? 12) || (c =? 13) || (c =? 32).

Fixpoint ws_runs_go (s cur : pystr) (b : bool) : list pystr :=
  match s with
  | [] => match cur with [] => [] | _ => [rev cur] end
  | c :: r =>
      if Bool.eqb (tw_ws c) b then ws_runs_go r (c :: cur) b
      else match cur with
           | [] => ws_runs_go r [c] (tw_ws c)
           | _ => rev cur :: ws_runs_go r [c] (tw_ws c)
           end
  end.

(** [wordsep_re.split] on text without a hyphen: the maximal runs of
    whitespace and of non-whitespace, in order. *)
Definition ws_runs (s : pystr) : list pystr := ws_runs_go s [] false.

(** ** Numbers *)

Definition Qltb (a b : Q) : bool := negb (Qle_bool b a).
Definition Qmaxb (a b : Q) : Q := if Qle_bool a b then b else a.
Definition Qminb (a b : Q) : Q := if Qle_bool a b then a else b.

(** Rounding half to even, as Python's float formatting rounds. *)
Definition round_half_even (x : Q) : Z :=
  let f := Qfloor x in
  let d := (x - inject_Z f)%Q in
  if Qltb (1 # 2) d then f + 1
  else if Qltb d (1 # 2) then f
  else if Z.even f then f else f + 1.

(** [f"{x:0.1f}"] *)
Definition py_format_1f (x : Q) : pystr :=
  let t := round_half_even (Qabs x * 10)%Q in
  (if Qltb x 0%Q then [45] else []) ++ py_str_int (t / 10) ++ [46] ++ py_str_int (t mod 10).

(** A Python [float] object: its value and its [str()]. *)
Record pyfloat := { pf_val : Q; pf_str : pystr }.

(** ** Progress settings (lines 19-94) *)

Record settings := {
  s_show : bool;      (* _cli_show_progress *)
  s_idle : Q;         (* _cli_progress_idle_seconds *)
  s_style : pystr;    (* _cli_progress_style *)
  s_interval : Q      (* _cli_progress_interval *)
}.

(** The process-wide defaults at import time. *)
Definition initial_defaults : settings :=
  {| s_show := true; s_idle := 2%Q; s_style := u "braille"; s_interval := 12 # 100 |}.

(** [configure_cli_progress] *)
Definition configure_cli_progress (d : settings) (show_progress : option bool)
    (idle_seconds : option Q) (style : option pystr) (interval : option Q) : settings :=
  {| s_show := match show_progress with Some b => b | None => s_show d end;
     s_idle := match idle_seconds with Some x => x | None => s_idle d end;
     s_style := match style with Some x => x | None => s_style d end;
     s_interval := match interval with Some x => x | None => s_interval d end |}.

(** [os.getenv] over the process environment. *)
Definition environ := pystr -> option pystr.

(** The primitives of Python the model takes as given: [float(str)] (with
    [None] for [ValueError]) and [TextWrapper._split] for [shorten]. *)
Record pyprims := {
  py_float : pystr -> option Q;
  tw_split : pystr -> list pystr
}.

Definition true_words : list pystr := [u "1"; u "true"; u "yes"; u "y"; u "on"].

(** [_parse_env_bool] *)
Definition parse_env_bool (env : environ) (name : pystr) : option bool :=
  match env name with
  | None => None
  | Some raw => Some (existsb (pystr_eqb (py_lower (py_strip raw))) true_words)
  end.

(** [_parse_env_float] *)
Definition parse_env_float (P : pyprims) (env : environ) (name : pystr) : option Q :=
  match env name with
  | None => None
  | Some raw =>
      match py_strip raw with
      | [] => None
      | _ => py_float P raw
      end
  end.

Record env_settings := {
  e_show : option bool; e_idle : option Q; e_style : option pystr; e_interval : option Q
}.

(** [_progress_settings_from_env] *)
Definition progress_settings_from_env (P : pyprims) (env : environ) : env_settings :=
  {| e_show := parse_env_bool env (u "CLI_SHOW_PROGRESS");
     e_idle := parse_env_float P env (u "CLI_PROGRESS_IDLE_SECONDS");
     e_style := env (u "CLI_PROGRESS_STYLE");
     e_interval := parse_env_float P env (u "CLI_PROGRESS_INTERVAL_SECONDS") |}.

(** ** Frames, elapsed time and the progress line (lines 97-144) *)

Definition BRAILLE_FRAMES : list pystr :=
  map u ["⠋"; "⠙"; "⠹"; "⠸"; "⠼"; "⠴"; "⠦"; "⠧"; "⠇"; "⠏"]%string.

Definition ASCII_FRAMES : list pystr := map u ["|"; "/"; "-"; "\"]%string.

(** [_select_frames] *)
Definition select_frames (style : pystr) : list pystr :=
  if pystr_eqb (py_lower (py_strip style)) (u "ascii") then ASCII_FRAMES
  else BRAILLE_FRAMES.

(** [_format_elapsed] *)
Definition format_elapsed (seconds : Q) : pystr :=
  if Qltb seconds 60%Q then py_format_1f seconds ++ u "s"
  else
    let minutes := Qfloor (seconds / 60)%Q in
    let sec := Qfloor (seconds - 60 * inject_Z (Qfloor (seconds / 60)))%Q in
    py_str_int minutes ++ u "m" ++ py_str_int02 sec ++ u "s".

(** [_ProgressLine] *)
Record progress_line := { pl_message : pystr; pl_frames : list pystr; pl_last_len : Z }.

Definition new_progress_line (message style : pystr) : progress_line :=
  {| pl_message := message; pl_frames := select_frames style; pl_last_len := 0 |}.

(** [_ProgressLine.render]: the new line state and the text written. *)
Definition pl_render (l : progress_line) (frame_idx : Z) (elapsed_seconds : Q)
    : progress_line * pystr :=
  let frame := nth (Z.to_nat (frame_idx mod zlen (pl_frames l))) (pl_frames l) [] in
  let text := frame ++ u " " ++ pl_message l ++ u "  " ++ format_elapsed elapsed_seconds in
  ({| pl_message := pl_message l; pl_frames := pl_frames l;
      pl_last_len := Z.max (pl_last_len l) (zlen text) |},
   [13] ++ text).

(** [_ProgressLine.clear]: the text written, if any. *)
Definition pl_clear (l : progress_line) : option pystr :=
  if pl_last_len l <=? 0 then None
  else Some ([13] ++ repeat 32 (Z.to_nat (pl_last_len l)) ++ [13]).

(** ** The idle progress indicator (lines 147-208) *)

(** The arguments [run_command] passes to [_IdleProgressIndicator]. *)
Record ind_cfg := { ic_message : pystr; ic_style : pystr; ic_interval : Q; ic_idle : Q }.

Record indicator := {
  ind_cfg_of : ind_cfg;
  ind_line : progress_line;
  ind_interval : Q;
  ind_idle_seconds : Q;
  ind_start : Q;        (* _start_time *)
  ind_shown : bool;     (* _shown *)
  ind_idx : Z           (* the local idx of _run *)
}.

(** [_IdleProgressIndicator(...)] followed by [start(start_time=...)]. *)
Definition new_indicator (c : ind_cfg) (start_time : Q) : indicator :=
  {| ind_cfg_of := c;
     ind_line := new_progress_line (ic_message c) (ic_style c);
     ind_interval := Qmaxb (ic_interval c) (2 # 100);
     ind_idle_seconds := Qmaxb (ic_idle c) 0;
     ind_start := start_time;
     ind_shown := false;
     ind_idx := 0 |}.

(** State of one [run_command] call: the indicator if one was created,
    the writes to [sys.stderr] and [sys.stdout], [out_lines], the shared
    last-activity timestamp, whether [proc.kill()] ran, and how many times
    [_ProgressLine.render] ran. *)
Record rstate := {
  rs_ind : option indicator;
  rs_err : list pystr;
  rs_stdout : list pystr;
  rs_lines : list pystr;
  rs_last : Q;
  rs_killed : bool;
  rs_renders : nat
}.

Definition set_ind (s : rstate) (i : option indicator) (err : list pystr) (r : nat) : rstate :=
  {| rs_ind := i; rs_err := err; rs_stdout := rs_stdout s; rs_lines := rs_lines s;
     rs_last := rs_last s; rs_killed := rs_killed s; rs_renders := r |}.

Definition with_line (i : indicator) (l : progress_line) (shown : bool) (idx : Z) : indicator :=
  {| ind_cfg_of := ind_cfg_of i; ind_line := l; ind_interval := ind_interval i;
     ind_idle_seconds := ind_idle_seconds i; ind_start := ind_start i;
     ind_shown := shown; ind_idx := idx |}.

(** [_IdleProgressIndicator.clear] (also the body of [stop()] once the
    thread has been stopped and joined). *)
Definition ind_clear (s : rstate) : rstate :=
  match rs_ind s with
  | Some i =>
      if ind_shown i then
        let err := match pl_clear (ind_line i) with
                   | Some t => rs_err s ++ [t]
                   | None => rs_err s
                   end in
        set_ind s (Some (with_line i (ind_line i) false (ind_idx i))) err (rs_renders s)
      else s
  | None => s
  end.

(** One pass of the [while not self._stop.is_set()] loop of the indicator
    thread, woken at time [now]; [rs_last] is what the last-activity getter
    returns. *)
Definition ind_wake (s : rstate) (now : Q) : rstate :=
  match rs_ind s with
  | None => s
  | Some i =>
      let idle := (now - rs_last s)%Q in
      if Qltb idle (ind_idle_seconds i) then ind_clear s
      else
        let '(l, t) := pl_render (ind_line i) (ind_idx i) (now - ind_start i)%Q in
        set_ind s (Some (with_line i l true (ind_idx i + 1))) (rs_err s ++ [t])
          (S (rs_renders s))
  end.

Definition ind_wakes (s : rstate) (nows : list Q) : rstate := fold_left ind_wake nows s.

(** [_IdleProgressIndicator.stop] *)
Definition ind_stop (s : rstate) : rstate := ind_clear s.

(** ** [run_command] (lines 211-491) *)

(** [RunResult] *)
Record RunResult := { returncode : Z; stdout : pystr; stderr : pystr }.

Inductive exc_type :=
  | RuntimeError | IndexError | FileNotFoundError | TimeoutExpired | CalledProcessError
  | PermissionError | NotADirectoryError | OSError | UnicodeDecodeError.

(** A raised exception: its class, its message and the exception it was
    raised [from], if any. *)
Record exc := { exc_kind : exc_type; exc_msg : pystr; exc_cause : option exc_type }.

Inductive outcome := Returned (r : RunResult) | Raised (e : exc).

(** The arguments of a call; [cwd] and [env] only reach the child and are
    left out. *)
Record call := {
  cmd : list pystr;
  timeout : option pyfloat;
  stream_output : bool;
  spinner_message : option pystr;
  show_progress : option bool;
  progress_idle_seconds : option Q;
  progress_style : option pystr;
  progress_interval : option Q
}.

(** The default [timeout=900.0]. *)
Definition default_timeout : option pyfloat := Some {| pf_val := 900; pf_str := u "900.0" |}.

(** [run_command(cmd, stream_output=mode)]: every other keyword argument
    left at its default. *)
Definition default_call (c : list pystr) (mode : bool) : call :=
  {| cmd := c; timeout := default_timeout; stream_output := mode;
     spinner_message := None; show_progress := None; progress_idle_seconds := None;
     progress_style := None; progress_interval := None |}.

(** The same call with [stream_output=b]. *)
Definition with_mode (c : call) (b : bool) : call :=
  {| cmd := cmd c; timeout := timeout c; stream_output := b;
     spinner_message := spinner_message c; show_progress := show_progress c;
     progress_idle_seconds := progress_idle_seconds c; progress_style := progress_style c;
     progress_interval := progress_interval c |}.

(** The same call with [timeout=t] passed explicitly. *)
Definition with_timeout (c : call) (t : option pyfloat) : call :=
  {| cmd := cmd c; timeout := t; stream_output := stream_output c;
     spinner_message := spinner_message c; show_progress := show_progress c;
     progress_idle_seconds := progress_idle_seconds c; progress_style := progress_style c;
     progress_interval := progress_interval c |}.

(** The process around the call: [os.environ], the process-wide defaults and
    whether [sys.stderr] is a terminal ([_is_tty(sys.stderr)]). *)
Record proc_env := { pe_environ : environ; pe_defaults : settings; pe_tty : bool }.

(** What [q.get] returns: a line, the end sentinel [None], or [queue.Empty]. *)
Inductive qitem := QLine (l : pystr) | QSentinel | QEmpty.

(** One iteration of the streaming [while True:] loop as the world plays it. *)
Record tick := {
  tk_wakes : list Q;   (* indicator-thread wake-ups run before this iteration *)
  tk_now : Q;          (* time.monotonic() at the top of the iteration *)
  tk_get : qitem;      (* q.get(timeout=get_timeout) *)
  tk_late : qitem;     (* q.get(timeout=0.2) once proc.poll() saw the exit *)
  tk_touch : Q         (* time.monotonic() in _touch_activity *)
}.

(** Why [exec] of the child failed, as [_posixsubprocess] reports it. *)
Inductive os_errno := ENOENT | EACCES | ENOTDIR | ENOEXEC.

(** The child process and the scheduling of the call. *)
Record world := {
  w_found : bool;       (* the child starts: Popen's exec of cmd[0] succeeds *)
  w_start_err : os_errno; (* otherwise, the errno of the failed exec *)
  w_undecodable : option pystr; (* the child's output does not decode in the
                           locale encoding: str() of the UnicodeDecodeError *)
  w_started : Q;        (* time.monotonic() stored in started *)
  w_exit : Q;           (* time at which the child exits *)
  w_code : Z;           (* its exit status *)
  w_out : pystr;        (* quiet mode: stdout captured by subprocess.run *)
  w_err : pystr;        (* quiet mode: stderr captured by subprocess.run *)
  w_ticks : list tick;  (* streaming mode: the polling loop *)
  w_wait_now : Q;       (* streaming mode: time.monotonic() for wait_timeout *)
  w_wakes : list Q      (* indicator wake-ups in the rest of the call *)
}.

Record run_out := {
  ro_outcome : outcome;
  ro_ind : option ind_cfg;   (* the indicator created, with its arguments *)
  ro_err : list pystr;       (* writes to sys.stderr *)
  ro_stdout : list pystr;    (* writes to sys.stdout *)
  ro_killed : bool;          (* proc.kill() ran on the child *)
  ro_renders : nat;          (* calls of _ProgressLine.render *)
  ro_reader_exc : option exc (* streaming mode: the exception the reader
                                thread died with; threading.excepthook prints
                                its traceback to sys.stderr *)
}.

Definition py_str_opt_float (t : option pyfloat) : pystr :=
  match t with Some f => pf_str f | None => u "None" end.

Definition join_cmd (c : list pystr) : pystr := py_join (u " ") c.

(** The three messages. *)
Definition not_found_msg (c : list pystr) : pystr :=
  u "필요한 명령을 찾을 수 없습니다: " ++ hd [] c
  ++ u " (gcloud/docker 가 설치되어 있는지 확인하세요)".

Definition timeout_msg (t : option pyfloat) (c : list pystr) : pystr :=
  u "명령 실행이 " ++ py_str_opt_float t ++ u "초 안에 끝나지 않았습니다: " ++ join_cmd c.

Definition failed_msg (c : list pystr) (code : Z) (detail : pystr) : pystr :=
  u "명령 실행 실패: " ++ join_cmd c ++ u " (exit=" ++ py_str_int code ++ u ")" ++ detail.

Definition runtime_error (m : pystr) (cause : option exc_type) : exc :=
  {| exc_kind := RuntimeError; exc_msg := m; exc_cause := cause |}.

Definition index_error : exc :=
  {| exc_kind := IndexError; exc_msg := u "list index out of range"; exc_cause := None |}.

(** The [OSError] subclass [Popen] raises for a failed [exec]
    ([errno_num], [os.strerror], and [orig_executable], that is [cmd[0]],
    as the file name). *)
Definition errno_class (e : os_errno) : exc_type :=
  match e with
  | ENOENT => FileNotFoundError | EACCES => PermissionError
  | ENOTDIR => NotADirectoryError | ENOEXEC => OSError
  end.

Definition errno_value (e : os_errno) : Z :=
  match e with ENOENT => 2 | EACCES => 13 | ENOTDIR => 20 | ENOEXEC => 8 end.

Definition strerror (e : os_errno) : pystr :=
  match e with
  | ENOENT => u "No such file or directory" | EACCES => u "Permission denied"
  | ENOTDIR => u "Not a directory" | ENOEXEC => u "Exec format error"
  end.

(** [str(OSError(errno, strerror, filename))] (the [repr] of a name
    without quotes). *)
Definition os_error_exc (c : list pystr) (e : os_errno) : exc :=
  {| exc_kind := errno_class e;
     exc_msg := u "[Errno " ++ py_str_int (errno_value e) ++ u "] " ++ strerror e
                ++ u ": '" ++ hd [] c ++ u "'";
     exc_cause := None |}.

(** What [run_command] raises when [Popen] fails: [except FileNotFoundError]
    turns [ENOENT] into the missing-program [RuntimeError]; the other
    [OSError]s propagate as they are. *)
Definition start_failure (c : list pystr) (e : os_errno) : exc :=
  match e with
  | ENOENT => runtime_error (not_found_msg c) (Some FileNotFoundError)
  | _ => os_error_exc c e
  end.

(** The [UnicodeDecodeError] of text-mode output that does not decode. *)
Definition decode_error (m : pystr) : exc :=
  {| exc_kind := UnicodeDecodeError; exc_msg := m; exc_cause := None |}.

(** The resolved settings (lines 286-309). *)
Definition effective_settings (P : pyprims) (pe : proc_env) (c : call) : settings :=
  let d := pe_defaults pe in
  let e := progress_settings_from_env P (pe_environ pe) in
  {| s_show := match show_progress c with
               | Some b => b
               | None => match e_show e with Some b => b | None => s_show d end
               end;
     s_idle := match progress_idle_seconds c with
               | Some x => x
               | None => match e_idle e with Some x => x | None => s_idle d end
               end;
     s_style := match progress_style c with
                | Some x => x
                | None => match e_style e with Some x => x | None => s_style d end
                end;
     s_interval := match progress_interval c with
                   | Some x => x
                   | None => match e_interval e with Some x => x | None => s_interval d end
                   end |}.

(** The resolution rule as the specification words it, one setting at a
    time: the per-call argument if given, else the environment override if
    set, else the process-wide default. *)
Definition first_given {A} (arg env : option A) (dflt : A) : A :=
  match arg with
  | Some a => a
  | None => match env with Some e => e | None => dflt end
  end.

Definition precedence_settings (P : pyprims) (pe : proc_env) (c : call) : settings :=
  let d := pe_defaults pe in
  let e := progress_settings_from_env P (pe_environ pe) in
  {| s_show := first_given (show_progress c) (e_show e) (s_show d);
     s_idle := first_given (progress_idle_seconds c) (e_idle e) (s_idle d);
     s_style := first_given (progress_style c) (e_style e) (s_style d);
     s_interval := first_given (progress_interval c) (e_interval e) (s_interval d) |}.

(** [_default_progress_message] *)
Definition default_progress_message (P : pyprims) (c : list pystr) : pystr :=
  shorten (tw_split P) (join_cmd c) 72 (u "…").

(** [spinner_message or _default_progress_message(cmd)] *)
Definition progress_message (P : pyprims) (c : call) : pystr :=
  match spinner_message c with
  | Some ((_ :: _) as m) => m
  | _ => default_progress_message P (cmd c)
  end.

Definition indicator_args (P : pyprims) (c : call) (eff : settings) : ind_cfg :=
  {| ic_message := progress_message P c; ic_style := s_style eff;
     ic_interval := s_interval eff; ic_idle := s_idle eff |}.

Definition init_state (started : Q) (ind : option indicator) : rstate :=
  {| rs_ind := ind; rs_err := []; rs_stdout := []; rs_lines := [];
     rs_last := started; rs_killed := false; rs_renders := 0 |}.

Definition kill (s : rstate) : rstate :=
  {| rs_ind := rs_ind s; rs_err := rs_err s; rs_stdout := rs_stdout s;
     rs_lines := rs_lines s; rs_last := rs_last s; rs_killed := true;
     rs_renders := rs_renders s |}.

(** A line taken from the queue: [indicator.clear()], [out_lines.append],
    [sys.stdout.write], [_touch_activity()]. *)
Definition take_line (s : rstate) (l : pystr) (now : Q) : rstate :=
  let s := ind_clear s in
  {| rs_ind := rs_ind s; rs_err := rs_err s; rs_stdout := rs_stdout s ++ [l];
     rs_lines := rs_lines s ++ [l]; rs_last := now; rs_killed := rs_killed s;
     rs_renders := rs_renders s |}.

Inductive loop_end := LBreak | LDeadline.

Definition deadline_reached (deadline : option Q) (now : Q) : bool :=
  match deadline with Some d => Qle_bool d now | None => false end.

(** [get_timeout = 0.1 if remaining is None else min(0.1, remaining)] *)
Definition get_timeout (deadline : option Q) (now : Q) : Q :=
  match deadline with
  | None => 1 # 10
  | Some d => Qminb (1 # 10) (Qmaxb (d - now) 0)
  end.

(** The streaming [while True:] loop (lines 374-405).  [LDeadline] is the
    [now >= deadline] exit (the caller kills and raises), [LBreak] a
    [break].  [proc.poll()] sees the exit once [w_exit] is past the end of
    the timed-out [q.get]; the item of the second [q.get(timeout=0.2)] is
    dropped by the [continue] that follows it. *)
Fixpoint stream_loop (w : world) (deadline : option Q) (ticks : list tick) (s : rstate)
    : option (loop_end * rstate) :=
  match ticks with
  | [] => None
  | tk :: rest =>
      let s := ind_wakes s (tk_wakes tk) in
      let now := tk_now tk in
      if deadline_reached deadline now then Some (LDeadline, s)
      else
        let gt := get_timeout deadline now in
        match tk_get tk with
        | QEmpty =>
            if Qle_bool (w_exit w) (now + gt) then
              match tk_late tk with
              | QEmpty => Some (LBreak, s)
              | _ => stream_loop w deadline rest s
              end
            else stream_loop w deadline rest s
        | QSentinel => Some (LBreak, s)
        | QLine l => stream_loop w deadline rest (take_line s l (tk_touch tk))
        end
  end.

Definition finish (s : rstate) (ind : option ind_cfg) (rx : option exc) (o : outcome)
    : run_out :=
  {| ro_outcome := o; ro_ind := ind; ro_err := rs_err s; ro_stdout := rs_stdout s;
     ro_killed := rs_killed s; ro_renders := rs_renders s; ro_reader_exc := rx |}.

Definition embed_limit : Z := 2000.

(** [detail] of the streaming branch (lines 428-429). *)
Definition stream_detail (P : pyprims) (lines : list pystr) : pystr :=
  match py_strip (concat lines) with
  | [] => []
  | combined =>
      NL ++ u "stdout/stderr:" ++ NL
      ++ shorten (tw_split P) combined embed_limit default_placeholder
  end.

(** [detail] of the [CalledProcessError] handler (lines 478-484). *)
Definition quiet_detail (P : pyprims) (out err : pystr) : pystr :=
  match py_strip err, py_strip out with
  | (_ :: _) as e, _ => NL ++ u "stderr:" ++ NL ++ shorten (tw_split P) e embed_limit default_placeholder
  | [], ((_ :: _) as o) => NL ++ u "stdout:" ++ NL ++ shorten (tw_split P) o embed_limit default_placeholder
  | [], [] => []
  end.

(** [proc.wait(timeout=wait_timeout)] returns (rather than raising
    [TimeoutExpired]) when the child exits within [wait_timeout]
    ([max(deadline - time.monotonic(), 0.0)], or no bound). *)
Definition wait_in_time (w : world) (deadline : option Q) : bool :=
  match deadline with
  | None => true
  | Some d => Qle_bool (w_exit w) (w_wait_now w + Qmaxb (d - w_wait_now w) 0)
  end.

(** The [stream_output=True] branch (lines 315-434).  [Popen] fails before
    the indicator exists; once the child runs, output that does not decode
    kills the reader thread (its [finally] still queues the end marker, so
    the loop goes on with the lines read so far). *)
Definition run_streaming (P : pyprims) (c : call) (w : world) (can_render : bool)
    (cfg : ind_cfg) : option run_out :=
  let started := w_started w in
  match cmd c with
  | [] => Some (finish (init_state started None) None None (Raised index_error))
  | _ =>
    if negb (w_found w) then
      Some (finish (init_state started None) None None
              (Raised (start_failure (cmd c) (w_start_err w))))
    else
      let deadline := option_map (fun t => (started + pf_val t)%Q) (timeout c) in
      let ind := if can_render then Some cfg else None in
      let rx := option_map decode_error (w_undecodable w) in
      let s0 := init_state started (option_map (fun g => new_indicator g started) ind) in
      match stream_loop w deadline (w_ticks w) s0 with
      | None => None
      | Some (LDeadline, s) =>
          let s := ind_stop (ind_wakes (kill s) (w_wakes w)) in
          Some (finish s ind rx (Raised (runtime_error (timeout_msg (timeout c) (cmd c)) None)))
      | Some (LBreak, s) =>
          if negb (wait_in_time w deadline) then
            let s := ind_stop (ind_wakes (kill s) (w_wakes w)) in
            Some (finish s ind rx (Raised (runtime_error (timeout_msg (timeout c) (cmd c))
                                             (Some TimeoutExpired))))
          else
            let s := ind_stop (ind_wakes s (w_wakes w)) in
            let code := w_code w in
            if negb (code =? 0) then
              Some (finish s ind rx (Raised (runtime_error
                      (failed_msg (cmd c) code (stream_detail P (rs_lines s))) None)))
            else
              Some (finish s ind rx (Returned {| returncode := code;
                                                 stdout := concat (rs_lines s);
                                                 stderr := [] |}))
      end
  end.

(** [subprocess.run(..., check=True, timeout=timeout)] as the world plays it:
    [Popen] fails, or [communicate] times out, or (after [wait]) decoding
    the captured output fails, or the exit status is checked. *)
Inductive run_result :=
  | RunIndexError | RunStartError (e : os_errno) | RunTimeout | RunDecodeError (m : pystr)
  | RunFailed (code : Z) | RunDone (code : Z).

(** [communicate(timeout=timeout)] raises [TimeoutExpired]. *)
Definition timed_out (c : call) (w : world) : bool :=
  match timeout c with
  | Some t => Qltb (w_started w + pf_val t) (w_exit w)
  | None => false
  end.

Definition subprocess_run (c : call) (w : world) : run_result :=
  match cmd c with
  | [] => RunIndexError
  | _ =>
    if negb (w_found w) then RunStartError (w_start_err w)
    else if timed_out c w then RunTimeout
    else match w_undecodable w with
         | Some m => RunDecodeError m
         | None => if w_code w =? 0 then RunDone 0 else RunFailed (w_code w)
         end
  end.

(** The capture branch (lines 436-490).  The indicator is started before
    [subprocess.run]; its wake-ups [w_wakes] happen while the call blocks.
    A [UnicodeDecodeError] escapes every [except] clause; the [kill] of
    [subprocess.run]'s own bare [except] does nothing to the child, which
    [communicate] has already waited for. *)
Definition run_quiet (P : pyprims) (c : call) (w : world) (can_render : bool)
    (cfg : ind_cfg) : run_out :=
  let started := w_started w in
  let ind := if can_render then Some cfg else None in
  let s := init_state started (option_map (fun g => new_indicator g started) ind) in
  let s := ind_wakes s (w_wakes w) in
  match subprocess_run c w with
  | RunIndexError => finish (ind_stop s) ind None (Raised index_error)
  | RunStartError e => finish (ind_stop s) ind None (Raised (start_failure (cmd c) e))
  | RunTimeout =>
      finish (ind_stop (kill s)) ind None
        (Raised (runtime_error (timeout_msg (timeout c) (cmd c)) (Some TimeoutExpired)))
  | RunDecodeError m => finish (ind_stop s) ind None (Raised (decode_error m))
  | RunFailed code =>
      finish (ind_stop s) ind None
        (Raised (runtime_error (failed_msg (cmd c) code (quiet_detail P (w_out w) (w_err w)))
                   (Some CalledProcessError)))
  | RunDone code =>
      finish (ind_stop s) ind None
        (Returned {| returncode := code; stdout := w_out w; stderr := w_err w |})
  end.

(** [run_command]; [None] when the world's schedule ends before the
    streaming loop does. *)
Definition run_command (P : pyprims) (pe : proc_env) (c : call) (w : world) : option run_out :=
  let eff := effective_settings P pe c in
  let can_render_progress := s_show eff && pe_tty pe in
  let cfg := indicator_args P c eff in
  if stream_output c then run_streaming P c w can_render_progress cfg
  else Some (run_quiet P c w can_render_progress cfg).

(** [a in b] on strings. *)
Definition infix (a b : pystr) : Prop := exists p q, b = p ++ a ++ q.

(** [b.startswith(a)] *)
Definition prefix (a b : pystr) : Prop := exists q, b = a ++ q.

(** ** A concrete instance of the primitives, for evaluation

    [float()] on plain decimal literals [d+] or [d+.d+] (surrounding
    whitespace allowed) and [ws_runs] as the chunker (exact on text without
    hyphens). *)

Fixpoint digits_ok (s : pystr) : bool :=
  match s with [] => true | c :: r => is_digit c && digits_ok r end.

Definition decimal_float (raw : pystr) : option Q :=
  let s := py_strip raw in
  match List.partition (fun c => negb (c =? 46)) s with
  | (_, []) =>
      if digits_ok s && negb (Nat.eqb (length s) 0)
      then Some (inject_Z (dec_value s)) else None
  | (_, _) =>
      let fix split_dot (l acc : pystr) : pystr * pystr :=
        match l with
        | [] => (rev acc, [])
        | c :: r => if c =? 46 then (rev acc, r) else split_dot r (c :: acc)
        end in
      let '(a, b) := split_dot s [] in
      if digits_ok a && digits_ok b && negb (Nat.eqb (length a) 0)
         && negb (Nat.eqb (length b) 0)
      then Some (inject_Z (dec_value a) + inject_Z (dec_value b) / inject_Z (10 ^ zlen b))%Q
      else None
  end.

Definition sample_prims : pyprims := {| py_float := decimal_float; tw_split := ws_runs |}.

(** ** Sample calls

    An empty environment, with [sys.stderr] a terminal or a pipe. *)
Definition env_empty : environ := fun _ => None.

Definition pe_term : proc_env :=
  {| pe_environ := env_empty; pe_defaults := initial_defaults; pe_tty := true |}.

Definition pe_pipe : proc_env :=
  {| pe_environ := env_empty; pe_defaults := initial_defaults; pe_tty := false |}.

(** [run_command(cmd, stream_output=mode, timeout=5, show_progress=True,
    progress_idle_seconds=0.05, progress_interval=0.02)]. *)
Definition sample_call (c : list pystr) (mode : bool) : call :=
  {| cmd := c; timeout := Some {| pf_val := 5; pf_str := u "5" |}; stream_output := mode;
     spinner_message := None; show_progress := Some true;
     progress_idle_seconds := Some (5 # 100); progress_style := None;
     progress_interval := Some (2 # 100) |}.

Definition sh_cmd (script : string) : list pystr := [u "sh"; u "-c"; u script].

(** A child that prints [done] after 0.15s and exits at 0.2s with status
    [code]; the indicator thread wakes at 0.1s, while nothing was printed. *)
Definition w_done (code : Z) : world :=
  {| w_found := true; w_start_err := ENOENT; w_undecodable := None;
     w_started := 0; w_exit := 2 # 10; w_code := code;
     w_out := u "done" ++ NL; w_err := [];
     w_ticks :=
       [ {| tk_wakes := []; tk_now := 0; tk_get := QEmpty; tk_late := QEmpty; tk_touch := 0 |};
         {| tk_wakes := [1 # 10]; tk_now := 1 # 10; tk_get := QLine (u "done" ++ NL);
            tk_late := QEmpty; tk_touch := 15 # 100 |};
         {| tk_wakes := []; tk_now := 15 # 100; tk_get := QSentinel; tk_late := QEmpty;
            tk_touch := 15 # 100 |} ];
     w_wait_now := 15 # 100; w_wakes := [1 # 10] |}.

Definition c_done (mode : bool) : call := sample_call (sh_cmd "sleep 0.15; echo done") mode.

(** A child still running at the 5s deadline. *)
Definition w_hang : world :=
  {| w_found := true; w_start_err := ENOENT; w_undecodable := None;
     w_started := 0; w_exit := 100%Q; w_code := 0;
     w_out := []; w_err := [];
     w_ticks :=
       [ {| tk_wakes := [1 # 10]; tk_now := 1 # 10; tk_get := QEmpty; tk_late := QEmpty;
            tk_touch := 0 |};
         {| tk_wakes := []; tk_now := 5; tk_get := QEmpty; tk_late := QEmpty; tk_touch := 0 |} ];
     w_wait_now := 5; w_wakes := [1 # 10] |}.

(** A child that would run for 1000s. *)
Definition w_long : world :=
  {| w_found := true; w_start_err := ENOENT; w_undecodable := None;
     w_started := 0; w_exit := 1000%Q; w_code := 0; w_out := [];
     w_err := []; w_ticks := []; w_wait_now := 0; w_wakes := [] |}.

(** [run_command(["gcloud", "builds", "submit"], stream_output=mode,
    show_progress=True, progress_idle_seconds=0)]. *)
Definition missing_call (mode : bool) : call :=
  {| cmd := [u "gcloud"; u "builds"; u "submit"]; timeout := default_timeout;
     stream_output := mode; spinner_message := None; show_progress := Some true;
     progress_idle_seconds := Some 0%Q; progress_style := None; progress_interval := None |}.

(** A missing executable. *)
Definition w_missing : world :=
  {| w_found := false; w_start_err := ENOENT; w_undecodable := None;
     w_started := 0; w_exit := 0; w_code := 0; w_out := []; w_err := [];
     w_ticks := []; w_wait_now := 0; w_wakes := [0%Q] |}.

(** A child that writes 2001 times [a] to stderr and exits with status 1
    after 0.1s. *)
Definition w_fail_long : world :=
  {| w_found := true; w_start_err := ENOENT; w_undecodable := None;
     w_started := 0; w_exit := 1 # 10; w_code := 1; w_out := [];
     w_err := repeat 97 2001; w_ticks := []; w_wait_now := 0; w_wakes := [] |}.

Definition c_fail_long : call := sample_call (sh_cmd "printf %2001s | tr ' ' a >&2; exit 1") false.

(** A child that prints [done] and exits at 0.05s: the first [q.get] of
    0.1s times out before the reader queues the line, [proc.poll()] sees the
    exit, and the line comes out of the second [q.get(timeout=0.2)]; the
    end-of-output marker follows. *)
Definition w_late_line : world :=
  {| w_found := true; w_start_err := ENOENT; w_undecodable := None;
     w_started := 0; w_exit := 1 # 20; w_code := 0; w_out := []; w_err := [];
     w_ticks :=
       [ {| tk_wakes := []; tk_now := 0; tk_get := QEmpty; tk_late := QLine (u "done" ++ NL);
            tk_touch := 0 |};
         {| tk_wakes := []; tk_now := 3 # 10; tk_get := QSentinel; tk_late := QEmpty;
            tk_touch := 0 |} ];
     w_wait_now := 3 # 10; w_wakes := [] |}.




(** An executable [cmd[0]] without the execute permission. *)
Definition w_denied : world :=
  {| w_found := false; w_start_err := EACCES; w_undecodable := None;
     w_started := 0; w_exit := 0; w_code := 0; w_out := []; w_err := [];
     w_ticks := []; w_wait_now := 0; w_wakes := [] |}.


(** The first and the last character of a string are not whitespace. *)
Definition first_ok (l : pystr) : Prop := forall a r, l = a :: r -> py_isspace a = false.
Definition last_ok (l : pystr) : Prop := forall p a, l = p ++ [a] -> py_isspace a = false.

(** The first chunk of the line starts with a non-whitespace character. *)
Definition head_ok (cl : list pystr) : Prop :=
  exists a r rest, cl = (a :: r) :: rest /\ py_isspace a = false.

(** What [run_command] embeds of an output [text] (width [embed_limit],
    the default placeholder, [chunks] the chunker of [textwrap]): at most
    [embed_limit] characters; the text with its whitespace collapsed when
    that fits; otherwise a non-empty prefix of the collapsed text followed
    by the placeholder, or the placeholder alone with its leading space
    stripped, the latter only when the first chunk of the collapsed text
    leaves no room for the placeholder. *)
Definition embedded_shape (chunks : pystr -> list pystr) (text r : pystr) : Prop :=
  let nt := normalize_ws text in
  zlen r <= embed_limit /\ (zlen nt <= embed_limit -> r = nt) /\
  (embed_limit < zlen nt ->
   (exists p q, p <> [] /\ nt = p ++ q /\ r = p ++ default_placeholder) \/
   (r = lstrip default_placeholder /\
    exists c rest, chunks nt = c :: rest /\
      embed_limit - zlen default_placeholder < zlen c)).

(** ** What the indicator leaves on [sys.stderr] *)

(** The text [_ProgressLine.clear] writes for a line whose longest render
    had [n] characters. *)
Definition clear_text (n : Z) : pystr := [13] ++ repeat 32 (Z.to_nat n) ++ [13].

(** The writes to [sys.stderr] are none, or end with a blanking line at
    least as long as each of them. *)
Definition err_ends_clear (err : list pystr) : Prop :=
  err = [] \/
  exists p n, err = p ++ [clear_text n] /\ Forall (fun t => zlen t <= zlen (clear_text n)) err.

(** Invariant of the runner state: without an indicator nothing was
    written; with one, every write fits in [last_len + 2] characters, and a
    hidden indicator was never shown or was last cleared. *)
Definition err_inv (s : rstate) : Prop :=
  match rs_ind s with
  | None => rs_err s = []
  | Some i =>
      let n := pl_last_len (ind_line i) in
      0 <= n /\ (ind_shown i = true -> 0 < n) /\
      Forall (fun t => zlen t <= n + 2) (rs_err s) /\
      (ind_shown i = false -> rs_err s = [] \/ exists p, rs_err s = p ++ [clear_text n])
  end.

(** ** [Spinner] (lines 215-262)

    The spinner's state: its message, whether [_stop] is set, the thread
    if [start] created one (with the local [idx] of its loop), and the
    writes to [sys.stderr]. *)

Definition SPINNER_FRAMES : list pystr := map u ["|"; "/"; "-"; "\"]%string.

Record spinner := {
  sp_message : pystr;
  sp_stop : bool;
  sp_thread : option Z;
  sp_err : list pystr
}.

(** [Spinner(message)] *)
Definition new_spinner (message : pystr) : spinner :=
  {| sp_message := message; sp_stop := false; sp_thread := None; sp_err := [] |}.

(** [Spinner.start] *)
Definition sp_start (s : spinner) : spinner :=
  match sp_thread s with
  | Some _ => s
  | None => {| sp_message := sp_message s; sp_stop := sp_stop s; sp_thread := Some 0;
               sp_err := sp_err s |}
  end.

(** [f"\r{self._message} {frame}"] *)
Definition sp_frame_text (message : pystr) (idx : Z) : pystr :=
  [13] ++ message ++ [32] ++ nth (Z.to_nat (idx mod zlen SPINNER_FRAMES)) SPINNER_FRAMES [].

(** One pass of the [while not self._stop.is_set()] loop of the thread. *)
Definition sp_tick (s : spinner) : spinner :=
  match sp_thread s with
  | Some idx =>
      if sp_stop s then s
      else {| sp_message := sp_message s; sp_stop := sp_stop s; sp_thread := Some (idx + 1);
              sp_err := sp_err s ++ [sp_frame_text (sp_message s) idx] |}
  | None => s
  end.

(** ["\r" + (" " * (len(self._message) + 4)) + "\r"] *)
Definition sp_blank (message : pystr) : pystr :=
  [13] ++ repeat 32 (length message + 4) ++ [13].

(** [Spinner.stop] (the join does not write). *)
Definition sp_stop_ (s : spinner) : spinner :=
  {| sp_message := sp_message s; sp_stop := true; sp_thread := sp_thread s;
     sp_err := sp_err s ++ [sp_blank (sp_message s)] |}.

(** The calls on a spinner and the passes of its thread, in the order they
    happen. *)
Inductive sp_op := SpStart | SpTick | SpStop.

Definition sp_step (s : spinner) (op : sp_op) : spinner :=
  match op with SpStart => sp_start s | SpTick => sp_tick s | SpStop => sp_stop_ s end.

Definition sp_run (s : spinner) (ops : list sp_op) : spinner := fold_left sp_step ops s.

(** [with Spinner(message):] around a body during which the thread makes
    [n] passes: [__enter__] starts, [__exit__] stops. *)
Definition spinner_session (message : pystr) (n : nat) : spinner :=
  sp_run (new_spinner message) (SpStart :: repeat SpTick n ++ [SpStop]).

(** ** The callers: [gcp_cloud_run] and [gcp_artifact_registry] *)

(** A [dict[str, str]] as its items in insertion order. *)
Definition pydict := list (pystr * pystr).

(** [d[k] = v]: an existing key keeps its place and gets the new value; a
    new key is appended. *)
Fixpoint dict_set (d : pydict) (k v : pystr) : pydict :=
  match d with
  | [] => [(k, v)]
  | (k', v') :: r => if pystr_eqb k k' then (k', v) :: r else (k', v') :: dict_set r k v
  end.

(** [d.get(k)] *)
Fixpoint dict_get (d : pydict) (k : pystr) : option pystr :=
  match d with
  | [] => None
  | (k', v) :: r => if pystr_eqb k k' then Some v else dict_get r k
  end.

(** The fields of [DeployConfig] the callers read. *)
Record deploy_config := {
  gcp_project_id : pystr;
  gcp_region : pystr;
  deploy_sa_email : pystr;
  artifact_registry_repo : pystr;
  backend_service_name : pystr;
  backend_build_mode : pystr;
  cli_stream_subprocess_output : bool;
  cloud_build_timeout_seconds : Z;
  backend_build_subprocess_timeout_seconds : Z;
  gcloud_run_deploy_timeout_seconds : Z;
  backend_allow_unauthenticated : bool;
  frontend_image_package : option pystr;
  backend_image_package : option pystr;
  etl_image_package : option pystr;
  backend_service_env : option pydict
}.

(** An [int] passed as [timeout=]: [str(timeout)] is its decimal form. *)
Definition int_timeout (n : Z) : option pyfloat :=
  Some {| pf_val := inject_Z n; pf_str := py_str_int n |}.

(** [run_command(cmd, timeout=t, stream_output=mode, spinner_message=sp)] *)
Definition run_call (c : list pystr) (t : option pyfloat) (mode : bool) (sp : option pystr)
    : call :=
  {| cmd := c; timeout := t; stream_output := mode; spinner_message := sp;
     show_progress := None; progress_idle_seconds := None; progress_style := None;
     progress_interval := None |}.

(** [infra_keys] of [_build_backend_env] *)
Definition infra_keys : list pystr :=
  map u ["GCP_PROJECT_ID"; "GCP_REGION"; "DEPLOY_SERVICE_ACCOUNT_EMAIL";
         "ARTIFACT_REGISTRY_REPO"; "BACKEND_SERVICE_NAME"; "BACKEND_BUILD_MODE";
         "BACKEND_ALLOW_UNAUTHENTICATED"; "BACKEND_IMAGE_NAME"; "FRONTEND_IMAGE_NAME";
         "ENABLE_BIGQUERY"; "ENABLE_CLOUD_SQL"; "ENABLE_GCS"; "ENABLE_FIREBASE";
         "ENABLE_SECRET_MANAGER"; "DEPLOY_BACKEND"; "DEPLOY_FRONTEND"; "DEPLOY_ETL_JOB";
         "CONFIGURE_SECRETS"; "BIGQUERY_PROJECT_ID"; "BIGQUERY_DATASET_ID";
         "CLOUD_SQL_INSTANCE_NAME"; "CLOUD_SQL_DB_NAME"; "CLOUD_SQL_USER"; "GCS_BUCKET_NAME";
         "GCS_PREFIX"; "FIREBASE_PROJECT_ID"; "FIREBASE_HOSTING_SITE"; "SECRET_PREFIX"]%string.

Definition is_infra_key (k : pystr) : bool := existsb (pystr_eqb k) infra_keys.

(** [_build_backend_env] *)
Definition build_backend_env (cfg : deploy_config) : pydict :=
  match backend_service_env cfg with
  | None | Some [] => []
  | Some items =>
      fold_left (fun env kv => if is_infra_key (fst kv) then env else dict_set env (fst kv) (snd kv))
        items []
  end.

(** [env_arg] of [deploy_backend_service] and [deploy_etl_job] *)
Definition env_arg (service_env : pydict) : pystr :=
  match service_env with
  | [] => []
  | _ => py_join (u ",") (map (fun kv => fst kv ++ u "=" ++ snd kv) service_env)
  end.

Definition set_env_vars_arg (a : pystr) : list pystr :=
  match a with [] => [] | _ => [u "--set-env-vars=" ++ a] end.

(** The command of [deploy_backend_service]. *)
Definition backend_deploy_cmd (cfg : deploy_config) (image_url : pystr) : list pystr :=
  [u "gcloud"; u "run"; u "deploy"; backend_service_name cfg; u "--image=" ++ image_url;
   u "--region=" ++ gcp_region cfg; u "--project=" ++ gcp_project_id cfg;
   u "--service-account=" ++ deploy_sa_email cfg; u "--platform=managed"; u "--quiet"]
  ++ set_env_vars_arg (env_arg (build_backend_env cfg))
  ++ [if backend_allow_unauthenticated cfg then u "--allow-unauthenticated"
      else u "--no-allow-unauthenticated"].

(** The command of [deploy_etl_job]. *)
Definition etl_deploy_cmd (cfg : deploy_config) (image_url : pystr) : list pystr :=
  [u "gcloud"; u "run"; u "jobs"; u "deploy"; backend_service_name cfg ++ u "-etl";
   u "--image=" ++ image_url; u "--region=" ++ gcp_region cfg;
   u "--project=" ++ gcp_project_id cfg; u "--service-account=" ++ deploy_sa_email cfg;
   u "--platform=managed"; u "--quiet"]
  ++ set_env_vars_arg (env_arg (build_backend_env cfg)).

(** The call [_run_gcloud] makes. *)
Definition gcloud_call (cfg : deploy_config) (c : list pystr) (spinner_message : pystr) : call :=
  run_call c (int_timeout (gcloud_run_deploy_timeout_seconds cfg))
    (cli_stream_subprocess_output cfg)
    (if cli_stream_subprocess_output cfg then None else Some spinner_message).

(** [deploy_backend_service] (the log lines left out). *)
Definition deploy_backend_service (P : pyprims) (pe : proc_env) (cfg : deploy_config)
    (image_url : pystr) (w : world) : option run_out :=
  run_command P pe (gcloud_call cfg (backend_deploy_cmd cfg image_url)
                      (u "Cloud Run 서비스 배포 중")) w.

(** [deploy_etl_job] *)
Definition deploy_etl_job (P : pyprims) (pe : proc_env) (cfg : deploy_config)
    (image_url : pystr) (w : world) : option run_out :=
  run_command P pe (gcloud_call cfg (etl_deploy_cmd cfg image_url)
                      (u "Cloud Run Job 배포 중")) w.

(** What a caller raises: an exception of [run_command], or the
    [ValueError] of [build_and_push_image] for the given
    [backend_build_mode] (its message is the f-string over the [repr] of
    that value). *)
Inductive py_exc := PyExc (e : exc) | ValueError (backend_build_mode : pystr).

Inductive py_result (A : Type) := Ok (a : A) | Err (e : py_exc).
Arguments Ok {A} a.
Arguments Err {A} e.

(** The calls a caller made, each with its run. *)
Definition runs := list (call * run_out).

(** [_run] of [gcp_artifact_registry] with the timeout and streaming mode
    of the configuration. *)
Definition ar_call (cfg : deploy_config) (t : Z) (c : list pystr) (sp : pystr) : call :=
  run_call c (int_timeout t) (cli_stream_subprocess_output cfg) (Some sp).

Definition describe_cmd (cfg : deploy_config) : list pystr :=
  [u "gcloud"; u "artifacts"; u "repositories"; u "describe"; artifact_registry_repo cfg;
   u "--location=" ++ gcp_region cfg; u "--project=" ++ gcp_project_id cfg].

Definition create_cmd (cfg : deploy_config) : list pystr :=
  [u "gcloud"; u "artifacts"; u "repositories"; u "create"; artifact_registry_repo cfg;
   u "--repository-format=DOCKER"; u "--location=" ++ gcp_region cfg;
   u "--project=" ++ gcp_project_id cfg].

Definition is_runtime_error (e : exc) : bool :=
  match exc_kind e with RuntimeError => true | _ => false end.

(** [ensure_repository]: [w1] plays the describe call, [w2] the create
    call (the log lines left out). *)
Definition ensure_repository (P : pyprims) (pe : proc_env) (cfg : deploy_config)
    (w1 w2 : world) : option (runs * py_result unit) :=
  let t := gcloud_run_deploy_timeout_seconds cfg in
  let d := ar_call cfg t (describe_cmd cfg) (u "Artifact Registry 리포 확인 중") in
  match run_command P pe d w1 with
  | None => None
  | Some o1 =>
      match ro_outcome o1 with
      | Returned _ => Some ([(d, o1)], Ok tt)
      | Raised e =>
          if is_runtime_error e then
            let cc := ar_call cfg t (create_cmd cfg) (u "Artifact Registry 리포 생성 중") in
            match run_command P pe cc w2 with
            | None => None
            | Some o2 =>
                Some ([(d, o1); (cc, o2)],
                      match ro_outcome o2 with
                      | Returned _ => Ok tt
                      | Raised e2 => Err (PyExc e2)
                      end)
            end
          else Some ([(d, o1)], Err (PyExc e))
      end
  end.

(** [x or None] on an [Optional[str]] used as a condition. *)
Definition truthy (o : option pystr) : option pystr :=
  match o with Some ((_ :: _) as p) => Some p | _ => None end.

(** [str.lower()] as far as an equality test with an ASCII word can tell:
    the ASCII capitals, and KELVIN SIGN (U+212A), the one non-ASCII
    character whose lower case is ASCII ([k]). *)
Definition py_lower_ascii_cmp (s : pystr) : pystr :=
  map (fun c => if (65 <=? c) && (c <=? 90) then c + 32 else if c =? 8490 then 107 else c) s.

(** The package of the image path. *)
Definition image_package (cfg : deploy_config) (service : pystr) : pystr :=
  match pystr_eqb service (u "backend"), truthy (backend_image_package cfg) with
  | true, Some p => p
  | _, _ =>
    match pystr_eqb service (u "etl"), truthy (etl_image_package cfg) with
    | true, Some p => p
    | _, _ =>
      match pystr_eqb service (u "frontend"), truthy (frontend_image_package cfg) with
      | true, Some p => p
      | _, _ => service
      end
    end
  end.

Definition image_url (cfg : deploy_config) (service : pystr) : pystr :=
  gcp_region cfg ++ u "-docker.pkg.dev/" ++ gcp_project_id cfg ++ u "/"
  ++ artifact_registry_repo cfg ++ u "/" ++ image_package cfg service ++ u ":latest".

(** [(cfg.backend_build_mode or "local_docker").lower()] *)
Definition build_mode (cfg : deploy_config) : pystr :=
  py_lower_ascii_cmp (match backend_build_mode cfg with [] => u "local_docker" | m => m end).

(** [build_and_push_image]: [w1] plays the build call, [w2] the push
    call; returns the image URL (the log lines left out). *)
Definition build_and_push_image (P : pyprims) (pe : proc_env) (cfg : deploy_config)
    (service context_dir : pystr) (w1 w2 : world) : option (runs * py_result pystr) :=
  let url := image_url cfg service in
  let mode := build_mode cfg in
  let t := backend_build_subprocess_timeout_seconds cfg in
  if pystr_eqb mode (u "local_docker") then
    let b := ar_call cfg t [u "docker"; u "build"; u "-t"; url; context_dir]
               (u "Docker 이미지 빌드 중") in
    match run_command P pe b w1 with
    | None => None
    | Some o1 =>
        match ro_outcome o1 with
        | Raised e => Some ([(b, o1)], Err (PyExc e))
        | Returned _ =>
            let p := ar_call cfg t [u "docker"; u "push"; url] (u "Docker 이미지 푸시 중") in
            match run_command P pe p w2 with
            | None => None
            | Some o2 =>
                Some ([(b, o1); (p, o2)],
                      match ro_outcome o2 with
                      | Returned _ => Ok url
                      | Raised e => Err (PyExc e)
                      end)
            end
        end
    end
  else if pystr_eqb mode (u "cloud_build") then
    let cloud_timeout := Z.max (cloud_build_timeout_seconds cfg) 1 in
    let b := ar_call cfg t
               [u "gcloud"; u "builds"; u "submit"; context_dir; u "--tag=" ++ url;
                u "--timeout=" ++ py_str_int cloud_timeout ++ u "s";
                u "--project=" ++ gcp_project_id cfg]
               (u "Cloud Build 이미지 빌드 중") in
    match run_command P pe b w1 with
    | None => None
    | Some o1 =>
        Some ([(b, o1)], match ro_outcome o1 with
                         | Returned _ => Ok url
                         | Raised e => Err (PyExc e)
                         end)
    end
  else Some ([], Err (ValueError (backend_build_mode cfg))).

(** [b.startswith(a)] and [a in b], decided. *)
Fixpoint prefixb (a b : pystr) : bool :=
  match a, b with
  | [], _ => true
  | x :: a', y :: b' => (x =? y) && prefixb a' b'
  | _ :: _, [] => false
  end.

Fixpoint infixb (a b : pystr) : bool :=
  prefixb a b || match b with [] => false | _ :: b' => infixb a b' end.

Definition check_describe_cmd (cfg : deploy_config) : list pystr :=
  describe_cmd cfg ++ [u "--quiet"].

Definition check_call (cfg : deploy_config) : call :=
  run_call (check_describe_cmd cfg) (int_timeout (gcloud_run_deploy_timeout_seconds cfg))
    false None.

Definition repo_exists_msg (cfg : deploy_config) : pystr :=
  u "Artifact Registry: 리포지토리 존재함 (" ++ artifact_registry_repo cfg ++ u ")".

Definition gcloud_missing_msg : pystr :=
  u "Artifact Registry: gcloud 명령을 찾을 수 없어 상태 확인 불가".

Definition repo_missing_msg (cfg : deploy_config) : pystr :=
  u "Artifact Registry: 리포지토리 없음 (생성이 필요함) (" ++ artifact_registry_repo cfg ++ u ")".

(** [check_repository] (the debug log of the describe output left out). *)
Definition check_repository (P : pyprims) (pe : proc_env) (cfg : deploy_config) (w : world)
    : option (run_out * py_result pystr) :=
  match run_command P pe (check_call cfg) w with
  | None => None
  | Some o =>
      Some (o, match ro_outcome o with
               | Returned _ => Ok (repo_exists_msg cfg)
               | Raised e =>
                   if is_runtime_error e then
                     if infixb (u "찾을 수 없습니다") (exc_msg e) then Ok gcloud_missing_msg
                     else Ok (repo_missing_msg cfg)
                   else Err (PyExc e)
               end)
  end.

(** A run that returned a [RunResult]. *)
Definition returned (co : call * run_out) : Prop := exists x, ro_outcome (snd co) = Returned x.

(** The same configuration with [backend_service_env=e]. *)
Definition with_service_env (cfg : deploy_config) (e : option pydict) : deploy_config :=
  {| gcp_project_id := gcp_project_id cfg; gcp_region := gcp_region cfg;
     deploy_sa_email := deploy_sa_email cfg; artifact_registry_repo := artifact_registry_repo cfg;
     backend_service_name := backend_service_name cfg;
     backend_build_mode := backend_build_mode cfg;
     cli_stream_subprocess_output := cli_stream_subprocess_output cfg;
     cloud_build_timeout_seconds := cloud_build_timeout_seconds cfg;
     backend_build_subprocess_timeout_seconds := backend_build_subprocess_timeout_seconds cfg;
     gcloud_run_deploy_timeout_seconds := gcloud_run_deploy_timeout_seconds cfg;
     backend_allow_unauthenticated := backend_allow_unauthenticated cfg;
     frontend_image_package := frontend_image_package cfg;
     backend_image_package := backend_image_package cfg;
     etl_image_package := etl_image_package cfg; backend_service_env := e |}.

(** A sample configuration: quiet subprocesses, the default timeouts, and a
    service environment with one infrastructure key. *)
Definition sample_cfg : deploy_config :=
  {| gcp_project_id := u "my-proj"; gcp_region := u "asia-northeast3";
     deploy_sa_email := u "deployer@my-proj.iam.gserviceaccount.com";
     artifact_registry_repo := u "apps"; backend_service_name := u "api";
     backend_build_mode := u "local_docker"; cli_stream_subprocess_output := false;
     cloud_build_timeout_seconds := 3600; backend_build_subprocess_timeout_seconds := 7200;
     gcloud_run_deploy_timeout_seconds := 1800; backend_allow_unauthenticated := true;
     frontend_image_package := None; backend_image_package := None; etl_image_package := None;
     backend_service_env := Some [(u "GCP_REGION", u "asia-northeast3"); (u "API_KEY", u "k1")] |}.

(** A child that would run for 4000s. *)
Definition w_stuck : world :=
  {| w_found := true; w_start_err := ENOENT; w_undecodable := None;
     w_started := 0; w_exit := 4000%Q; w_code := 0; w_out := [];
     w_err := []; w_ticks := []; w_wait_now := 0; w_wakes := [] |}.

(** An environment with [CLI_SHOW_PROGRESS=enabled], a blank idle value and
    an unparseable interval. *)
Definition env_odd : environ := fun k =>
  if pystr_eqb k (u "CLI_SHOW_PROGRESS") then Some (u "enabled")
  else if pystr_eqb k (u "CLI_PROGRESS_IDLE_SECONDS") then Some (u "  ")
  else if pystr_eqb k (u "CLI_PROGRESS_INTERVAL_SECONDS") then Some (u "fast")
  else None.

(** * Proofs *)

(** ** Decimal rendering *)

Lemma dec_value_snoc : forall l d, dec_value (l ++ [d]) = dec_value l * 10 + (d - 48).
Proof. intros. unfold dec_value. rewrite fold_left_app. reflexivity. Qed.

Lemma is_digit_range : forall d, 0 <= d < 10 -> is_digit (48 + d) = true.
Proof.
  intros d Hd. unfold is_digit. apply andb_true_intro; split; apply Z.leb_le; lia.
Qed.

Lemma digits_rev_spec : forall fuel n, 0 <= n < Z.of_nat fuel ->
  rev (digits_rev fuel n) <> [] /\ forallb is_digit (rev (digits_rev fuel n)) = true
  /\ dec_value (rev (digits_rev fuel n)) = n.
Proof.
  induction fuel as [|f IH]; intros n Hn; [lia|].
  cbn [digits_rev rev].
  assert (Hd : is_digit (48 + n mod 10) = true)
    by (apply is_digit_range; apply Z.mod_pos_bound; lia).
  destruct (n <? 10) eqn:Hlt.
  - apply Z.ltb_lt in Hlt. cbn [rev app forallb]. rewrite Hd.
    repeat split; [discriminate|]. unfold dec_value. cbn [fold_left].
    rewrite Z.mod_small by lia. lia.
  - apply Z.ltb_ge in Hlt.
    destruct (IH (n / 10)) as (H1 & H2 & H3).
    { split; [apply Z.div_pos; lia|]. apply Z.div_lt_upper_bound; lia. }
    repeat split.
    + intro E. apply app_eq_nil in E. destruct E as [_ E]. discriminate.
    + rewrite forallb_app, H2. cbn [forallb]. rewrite Hd. reflexivity.
    + rewrite dec_value_snoc, H3. pose proof (Z.div_mod n 10). lia.
Qed.

Lemma py_str_int_spec : forall n, 0 <= n ->
  py_str_int n <> [] /\ forallb is_digit (py_str_int n) = true /\ dec_value (py_str_int n) = n.
Proof.
  intros n Hn. unfold py_str_int.
  destruct (n <? 0) eqn:H; [apply Z.ltb_lt in H; lia|].
  apply digits_rev_spec. rewrite Nat2Z.inj_succ, Z2Nat.id by lia. lia.
Qed.

Lemma py_str_int_small : forall n, 0 <= n < 10 -> py_str_int n = [48 + n].
Proof.
  intros n Hn. unfold py_str_int.
  destruct (n <? 0) eqn:H; [apply Z.ltb_lt in H; lia|].
  cbn [digits_rev]. destruct (n <? 10) eqn:H10; [|apply Z.ltb_ge in H10; lia].
  rewrite Z.mod_small by lia. reflexivity.
Qed.

Lemma py_str_int02_spec : forall n, 0 <= n < 100 -> exists d1 d2,
  py_str_int02 n = [d1; d2] /\ is_digit d1 = true /\ is_digit d2 = true
  /\ (d1 - 48) * 10 + (d2 - 48) = n.
Proof.
  intros n Hn. unfold py_str_int02.
  destruct (Z.lt_ge_cases n 10) as [Hs|Hb].
  - rewrite py_str_int_small by lia. simpl.
    exists 48, (48 + n). repeat split; try apply (is_digit_range 0); try apply is_digit_range; lia.
  - unfold py_str_int.
    destruct (n <? 0) eqn:H; [apply Z.ltb_lt in H; lia|].
    replace (S (Z.to_nat n)) with (S (S (Z.to_nat (n - 1)))) by (rewrite <- Z2Nat.inj_succ by lia; f_equal; f_equal; lia).
    cbn [digits_rev].
    destruct (n <? 10) eqn:H10; [apply Z.ltb_lt in H10; lia|].
    destruct (n / 10 <? 10) eqn:H10'; [|apply Z.ltb_ge in H10'; pose proof (Z.div_lt_upper_bound n 10 10); lia].
    apply Z.ltb_lt in H10'.
    assert (0 <= n / 10) by (apply Z.div_pos; lia).
    rewrite (Z.mod_small (n / 10)) by lia. simpl.
    exists (48 + n / 10), (48 + n mod 10).
    pose proof (Z.mod_pos_bound n 10). pose proof (Z.div_mod n 10).
    repeat split; try apply is_digit_range; lia.
Qed.

(** ** Rationals *)

Lemma Qle_bool_false : forall a b, (b < a)%Q -> Qle_bool a b = false.
Proof.
  intros a b H. destruct (Qle_bool a b) eqn:E; [|reflexivity].
  apply Qle_bool_iff in E. exfalso. apply (Qlt_not_le b a); assumption.
Qed.

Lemma Qltb_true : forall a b, (a < b)%Q -> Qltb a b = true.
Proof. intros a b H. unfold Qltb. rewrite Qle_bool_false; auto. Qed.

Lemma Qltb_false : forall a b, (b <= a)%Q -> Qltb a b = false.
Proof. intros a b H. unfold Qltb. apply Qle_bool_iff in H. rewrite H. reflexivity. Qed.

Lemma Qmaxb_le : forall a b, (a <= Qmaxb a b)%Q /\ (b <= Qmaxb a b)%Q.
Proof.
  intros a b. unfold Qmaxb. destruct (Qle_bool a b) eqn:E.
  - apply Qle_bool_iff in E. split; [exact E | apply Qle_refl].
  - split; [apply Qle_refl|]. apply Qlt_le_weak. apply Qnot_le_lt.
    intro L. apply Qle_bool_iff in L. congruence.
Qed.

Lemma Qmaxb_cases : forall a b, Qmaxb a b = a \/ Qmaxb a b = b.
Proof. intros a b. unfold Qmaxb. destruct (Qle_bool a b); auto. Qed.

Lemma Qabs_nonneg_eq : forall s, (0 <= s)%Q -> Qabs s = s.
Proof.
  intros [n d] H. unfold Qle in H. simpl in H. unfold Qabs. f_equal. apply Z.abs_eq. lia.
Qed.

Lemma Qfloor_nonneg : forall x, (0 <= x)%Q -> 0 <= Qfloor x.
Proof. intros x H. apply (Qfloor_resp_le 0 x) in H. exact H. Qed.

Lemma round_half_even_nonneg : forall x, (0 <= x)%Q -> 0 <= round_half_even x.
Proof.
  intros x H. pose proof (Qfloor_nonneg x H). unfold round_half_even.
  destruct (Qltb _ _); [lia|]. destruct (Qltb _ _); [lia|]. destruct (Z.even _); lia.
Qed.

Lemma sec_bounds : forall s : Q, (60 <= s)%Q ->
  1 <= Qfloor (s / 60) /\
  0 <= Qfloor (s - 60 * inject_Z (Qfloor (s / 60))) < 60.
Proof.
  intros s Hs.
  set (m := Qfloor (s / 60)).
  assert (H1 : (inject_Z m <= s / 60)%Q) by apply Qfloor_le.
  assert (H2 : (s / 60 < inject_Z (m + 1))%Q) by apply Qlt_floor.
  rewrite inject_Z_plus in H2. change (inject_Z 1) with 1%Q in H2.
  assert (Hd : (s / 60 * 60 == s)%Q) by (field; discriminate).
  assert (Hm : (1 <= s / 60)%Q).
  { set (q := (s / 60)%Q) in *. clearbody m q. lra. }
  assert (Hm1 : 1 <= m) by (apply Qfloor_resp_le in Hm; exact Hm).
  set (q := (s / 60)%Q) in *. clearbody m q.
  assert (H1' : (60 * inject_Z m <= s)%Q) by lra.
  assert (H2' : (s < 60 * inject_Z m + 60)%Q) by lra.
  split.
  - exact Hm1.
  - set (y := (s - 60 * inject_Z m)%Q).
    split.
    + apply (Qfloor_resp_le 0 y). unfold y. lra.
    + pose proof (Qfloor_le y) as Hy.
      assert (Hy' : (inject_Z (Qfloor y) < inject_Z 60)%Q).
      { change (inject_Z 60) with 60%Q. unfold y in *. lra. }
      rewrite <- Zlt_Qlt in Hy'. exact Hy'.
Qed.

(** ** Frames and elapsed time *)

(** C10: [_select_frames] is total.  For every style string, the one whose
    trimmed, lowercased form is ["ascii"] gets the 4-frame ASCII cycle, and
    every other one (empty and unknown styles included) gets the 10-frame
    braille cycle; either way the list is non-empty, so the
    [frame_idx % len(frames)] of [render] is always defined. *)
Theorem select_frames_total : forall style : pystr,
  (py_lower (py_strip style) = u "ascii"
   /\ select_frames style = ASCII_FRAMES /\ length (select_frames style) = 4%nat)
  \/ (py_lower (py_strip style) <> u "ascii"
      /\ select_frames style = BRAILLE_FRAMES /\ length (select_frames style) = 10%nat).
Proof.
  intro style. unfold select_frames, pystr_eqb.
  destruct (list_eq_dec Z.eq_dec (py_lower (py_strip style)) (u "ascii")) as [H|H].
  - left. repeat split; auto.
  - right. repeat split; auto.
Qed.

(** C8: for a non-negative elapsed time, [_format_elapsed] renders a value
    under 60 as decimal digits, a dot, one digit and [s] (the value rounded
    to tenths), and a value of 60 or more as the decimal whole minutes, [m],
    exactly two digits for the remaining whole seconds (0 to 59), and [s]. *)
Theorem format_elapsed_shape : forall s : Q, (0 <= s)%Q ->
  ((s < 60)%Q -> exists a d,
      format_elapsed s = a ++ [46; d] ++ u "s"
      /\ a <> [] /\ forallb is_digit a = true /\ is_digit d = true
      /\ dec_value a * 10 + (d - 48) = round_half_even (s * 10))
  /\ ((60 <= s)%Q -> exists m d1 d2,
      format_elapsed s = m ++ u "m" ++ [d1; d2] ++ u "s"
      /\ m <> [] /\ forallb is_digit m = true
      /\ is_digit d1 = true /\ is_digit d2 = true
      /\ dec_value m = Qfloor (s / 60)
      /\ (d1 - 48) * 10 + (d2 - 48) = Qfloor (s - 60 * inject_Z (Qfloor (s / 60)))
      /\ 0 <= (d1 - 48) * 10 + (d2 - 48) < 60).
Proof.
  intros s Hs. split.
  - intro Hlt. unfold format_elapsed. rewrite (Qltb_true _ _ Hlt).
    unfold py_format_1f. rewrite (Qltb_false s 0 Hs), Qabs_nonneg_eq by exact Hs.
    assert (Ht : 0 <= round_half_even (s * 10)).
    { apply round_half_even_nonneg. apply Qmult_le_0_compat; [exact Hs | discriminate]. }
    set (t := round_half_even (s * 10)) in *.
    pose proof (Z.mod_pos_bound t 10) as Hm.
    rewrite (py_str_int_small (t mod 10)) by lia.
    destruct (py_str_int_spec (t / 10)) as (H1 & H2 & H3); [apply Z.div_pos; lia|].
    exists (py_str_int (t / 10)), (48 + t mod 10).
    repeat split; auto.
    + rewrite app_nil_l, <- app_assoc. reflexivity.
    + apply is_digit_range. lia.
    + rewrite H3. pose proof (Z.div_mod t 10). lia.
  - intro Hge. unfold format_elapsed. rewrite (Qltb_false _ _ Hge).
    destruct (sec_bounds s Hge) as [Hm Hsec].
    destruct (py_str_int_spec (Qfloor (s / 60))) as (H1 & H2 & H3); [lia|].
    destruct (py_str_int02_spec (Qfloor (s - 60 * inject_Z (Qfloor (s / 60)))))
      as (d1 & d2 & E & D1 & D2 & V); [lia|].
    rewrite E.
    exists (py_str_int (Qfloor (s / 60))), d1, d2.
    repeat split; auto; lia.
Qed.

Lemma format_elapsed_shape_witness :
  (0 <= 61)%Q /\
  ((60 <= 61)%Q -> exists m d1 d2, format_elapsed 61 = m ++ u "m" ++ [d1; d2] ++ u "s").
Proof.
  assert (H0 : (0 <= 61)%Q) by (apply Qle_bool_iff; reflexivity).
  split; [exact H0|]. intro H.
  destruct (proj2 (format_elapsed_shape 61 H0) H) as (m & d1 & d2 & E & _).
  exists m, d1, d2. exact E.
Defined.

(** ** Invariants of the runner state *)

Lemma ind_clear_none : forall s, rs_ind s = None -> ind_clear s = s.
Proof. intros s H. unfold ind_clear. rewrite H. reflexivity. Qed.

Lemma ind_wakes_none : forall ts s, rs_ind s = None -> ind_wakes s ts = s.
Proof.
  induction ts as [|t ts IH]; intros s H; [reflexivity|].
  unfold ind_wakes. cbn [fold_left].
  replace (ind_wake s t) with s by (unfold ind_wake; rewrite H; reflexivity).
  apply IH. exact H.
Qed.

Lemma ind_stop_none : forall s, rs_ind s = None -> ind_stop s = s.
Proof. exact ind_clear_none. Qed.

Lemma stream_loop_none : forall w d ts s e s',
  rs_ind s = None -> stream_loop w d ts s = Some (e, s') ->
  rs_ind s' = None /\ rs_err s' = rs_err s /\ rs_renders s' = rs_renders s.
Proof.
  intros w d. induction ts as [|tk ts IH]; intros s e s' Hn H; [discriminate|].
  cbn [stream_loop] in H. rewrite (ind_wakes_none _ _ Hn) in H.
  destruct (deadline_reached d (tk_now tk)).
  - injection H as _ <-. auto.
  - destruct (tk_get tk) as [l| |].
    + apply IH in H.
      * destruct H as (H1 & H2 & H3). rewrite H2, H3. unfold take_line.
        rewrite (ind_clear_none _ Hn). auto.
      * unfold take_line. rewrite (ind_clear_none _ Hn). exact Hn.
    + injection H as _ <-. auto.
    + destruct (Qle_bool _ _); [destruct (tk_late tk)|]; try (injection H as _ <-; auto);
        eapply IH; eauto.
Qed.

Lemma ind_clear_killed : forall s, rs_killed (ind_clear s) = rs_killed s.
Proof.
  intros s. unfold ind_clear. destruct (rs_ind s) as [i|]; [|reflexivity].
  destruct (ind_shown i); reflexivity.
Qed.

Lemma ind_wakes_killed : forall ts s, rs_killed (ind_wakes s ts) = rs_killed s.
Proof.
  induction ts as [|t ts IH]; intros s; [reflexivity|].
  unfold ind_wakes in *. cbn [fold_left]. rewrite IH.
  unfold ind_wake. destruct (rs_ind s) as [i|]; [|reflexivity].
  destruct (Qltb _ _); [apply ind_clear_killed|].
  destruct (pl_render _ _ _); reflexivity.
Qed.

Lemma stream_loop_killed : forall w d ts s e s',
  stream_loop w d ts s = Some (e, s') -> rs_killed s' = rs_killed s.
Proof.
  intros w d. induction ts as [|tk ts IH]; intros s e s' H; [discriminate|].
  cbn [stream_loop] in H.
  destruct (deadline_reached d (tk_now tk)).
  - injection H as _ <-. apply ind_wakes_killed.
  - destruct (tk_get tk) as [l| |].
    + apply IH in H. rewrite H. unfold take_line. cbn [rs_killed].
      rewrite ind_clear_killed. apply ind_wakes_killed.
    + injection H as _ <-. apply ind_wakes_killed.
    + destruct (Qle_bool _ _); [destruct (tk_late tk)|];
        try (injection H as _ <-; apply ind_wakes_killed);
        apply IH in H; rewrite H; apply ind_wakes_killed.
Qed.

Lemma stop_wakes_killed : forall s ts, rs_killed (ind_stop (ind_wakes s ts)) = rs_killed s.
Proof. intros. unfold ind_stop. rewrite ind_clear_killed. apply ind_wakes_killed. Qed.

(** Case analysis of one call of [run_command], one goal per exit path. *)
Ltac run_cases H :=
  unfold run_command in H; cbv zeta in H;
  destruct (stream_output _) eqn:?Hmode;
  [ unfold run_streaming in H; cbv zeta in H;
    destruct (cmd _) eqn:?Hcmd;
    [ injection H as <-
    | destruct (w_found _) eqn:?Hfound; cbn [negb] in H;
      [ destruct (stream_loop _ _ _ _) as [[[|] ?s]|] eqn:?Hloop;
        [ destruct (wait_in_time _ _) eqn:?Hwait; cbn [negb] in H;
          [ destruct (_ =? 0) eqn:?Hcode; cbn [negb] in H; injection H as <-
          | injection H as <- ]
        | injection H as <-
        | discriminate H ]
      | injection H as <- ] ]
  | unfold run_quiet in H; cbv zeta in H; injection H as <-;
    destruct (subprocess_run _ _) eqn:?Hrun ].

(** Case analysis of [subprocess_run]: one goal per result left. *)
Ltac sr_split H :=
  unfold subprocess_run in H;
  let Ec := fresh "Ec" in let Ef := fresh "Ef" in let Et := fresh "Et" in
  let Eu := fresh "Eu" in let Ez := fresh "Ez" in
  destruct (cmd _) eqn:Ec;
  [ | destruct (w_found _) eqn:Ef; cbn [negb] in H;
      [ destruct (timed_out _ _) eqn:Et;
        [ | destruct (w_undecodable _) eqn:Eu; [ | destruct (w_code _ =? 0) eqn:Ez ] ]
      | ] ];
  try discriminate H.

Lemma timed_out_true : forall c w, timed_out c w = true ->
  exists t, timeout c = Some t /\ (w_started w + pf_val t < w_exit w)%Q.
Proof.
  intros c w H. unfold timed_out in H. destruct (timeout c) as [t|]; [|discriminate H].
  exists t. split; [reflexivity|]. unfold Qltb in H. apply negb_true_iff in H.
  apply Qnot_le_lt. intro L. apply Qle_bool_iff in L. congruence.
Qed.


Lemma subprocess_run_index : forall c w, subprocess_run c w = RunIndexError -> cmd c = [].
Proof. intros c w H. sr_split H. reflexivity. Qed.

Lemma subprocess_run_start : forall c w e, subprocess_run c w = RunStartError e ->
  cmd c <> [] /\ w_found w = false /\ e = w_start_err w.
Proof.
  intros c w e H. sr_split H. injection H as <-. split; [discriminate|]. auto.
Qed.

Lemma subprocess_run_timeout : forall c w, subprocess_run c w = RunTimeout ->
  cmd c <> [] /\ w_found w = true /\
  exists t, timeout c = Some t /\ (w_started w + pf_val t < w_exit w)%Q.
Proof.
  intros c w H. sr_split H. split; [discriminate|split; [reflexivity|]].
  apply timed_out_true. exact Et.
Qed.

Lemma subprocess_run_decode : forall c w m, subprocess_run c w = RunDecodeError m ->
  cmd c <> [] /\ w_found w = true /\ timed_out c w = false /\ w_undecodable w = Some m.
Proof.
  intros c w m H. sr_split H. injection H as <-. split; [discriminate|]. auto.
Qed.

Lemma subprocess_run_failed : forall c w code, subprocess_run c w = RunFailed code ->
  cmd c <> [] /\ w_found w = true /\ timed_out c w = false /\ w_undecodable w = None /\
  code = w_code w /\ w_code w <> 0.
Proof.
  intros c w code H. sr_split H. injection H as <-. apply Z.eqb_neq in Ez.
  split; [discriminate|]. auto.
Qed.

Lemma subprocess_run_done : forall c w code, subprocess_run c w = RunDone code ->
  cmd c <> [] /\ w_found w = true /\ timed_out c w = false /\ w_undecodable w = None /\
  code = 0 /\ w_code w = 0.
Proof.
  intros c w code H. sr_split H. injection H as <-. apply Z.eqb_eq in Ez.
  split; [discriminate|]. auto.
Qed.

Lemma stop_wakes_none : forall s ts, rs_ind s = None -> ind_stop (ind_wakes s ts) = s.
Proof.
  intros s ts H. rewrite (ind_wakes_none _ _ H). apply ind_stop_none. exact H.
Qed.

Lemma stop_none : forall s ts, rs_ind s = None -> ind_stop (kill (ind_wakes s ts)) = kill s.
Proof.
  intros s ts H. rewrite (ind_wakes_none _ _ H). apply ind_stop_none. exact H.
Qed.

Lemma frame_nonempty : forall g, In g (BRAILLE_FRAMES ++ ASCII_FRAMES) -> g <> [].
Proof.
  intros g H. vm_compute in H.
  repeat (destruct H as [<- | H]; [discriminate|]). destruct H.
Qed.

(** C6: when the resolved [show_progress] is false or [sys.stderr] is not a
    terminal, no indicator is created, [_ProgressLine.render] never runs and
    nothing at all is written to [sys.stderr], so no frame glyph of either
    set appears there, whatever the timing of the call. *)
Theorem no_progress_output_when_gated : forall P pe c w o,
  s_show (effective_settings P pe c) = false \/ pe_tty pe = false ->
  run_command P pe c w = Some o ->
  ro_ind o = None /\ ro_err o = [] /\ ro_renders o = 0%nat /\
  (forall g, In g (BRAILLE_FRAMES ++ ASCII_FRAMES) -> ~ infix g (concat (ro_err o))).
Proof.
  intros P pe c w o Hg H.
  assert (Hcan : s_show (effective_settings P pe c) && pe_tty pe = false)
    by (destruct Hg as [E|E]; rewrite E; [reflexivity|apply andb_false_r]).
  assert (Hfin : forall s ind rx oc, ind = None -> rs_err s = [] -> rs_renders s = 0%nat ->
            ro_ind (finish s ind rx oc) = None /\ ro_err (finish s ind rx oc) = [] /\
            ro_renders (finish s ind rx oc) = 0%nat /\
            (forall g, In g (BRAILLE_FRAMES ++ ASCII_FRAMES) ->
               ~ infix g (concat (ro_err (finish s ind rx oc))))).
  { intros s ind rx oc -> E R. cbn [ro_ind ro_err ro_renders finish]. rewrite E.
    split; [reflexivity|split; [reflexivity|split; [exact R|]]].
    intros g Hin (p & q & Hpq). apply (frame_nonempty g Hin).
    cbn [concat] in Hpq. destruct p, g; try discriminate; reflexivity. }
  unfold run_command in H. cbv zeta in H. rewrite Hcan in H.
  run_cases H; try (apply Hfin; reflexivity).
  all: try (apply stream_loop_none in Hloop; [|reflexivity]; destruct Hloop as (N & E & R);
            cbn [init_state rs_err rs_renders] in E, R).
  all: try (apply Hfin; [reflexivity| |];
            rewrite stop_wakes_none by (cbn [kill rs_ind]; assumption);
            cbn [kill rs_err rs_renders]; assumption).
  all: destruct (subprocess_run c w); apply Hfin; try reflexivity;
       rewrite ?stop_wakes_none, ?stop_none by reflexivity; reflexivity.
Qed.

Lemma quiet_killed_wakes : forall s ts, rs_killed (ind_stop (ind_wakes s ts)) = rs_killed s.
Proof. exact stop_wakes_killed. Qed.

Lemma stop_kill_killed : forall s, rs_killed (ind_stop (kill s)) = true.
Proof. intros s. unfold ind_stop. rewrite ind_clear_killed. reflexivity. Qed.

Lemma stop_wakes_kill_killed : forall s ts, rs_killed (ind_stop (ind_wakes (kill s) ts)) = true.
Proof. intros s ts. rewrite stop_wakes_killed. reflexivity. Qed.

(** Evaluates a call of [run_command] on a sample input: [o] is replaced by
    the computed result and [E] keeps the equation. *)
Ltac eval_run E :=
  match goal with
  | |- exists o, ?lhs = Some o /\ _ =>
      let o := fresh "o" in
      destruct lhs as [o|] eqn:E; [|vm_compute in E; discriminate E];
      exists o; split; [reflexivity|];
      let E' := fresh in
      pose proof E as E'; vm_compute in E'; injection E' as E'; subst o
  end.



Lemma no_progress_output_when_gated_witness :
  exists o, run_command sample_prims pe_pipe (c_done true) (w_done 0) = Some o /\
  pe_tty pe_pipe = false /\ ro_ind o = None /\ ro_err o = [] /\ ro_renders o = 0%nat.
Proof.
  eval_run E.
  destruct (no_progress_output_when_gated sample_prims pe_pipe _ _ _ (or_intror eq_refl) E)
    as (Hi & He & Hr & _).
  split; [reflexivity|]. auto.
Defined.


(** ** The deadline *)

Lemma wait_in_time_late : forall w d,
  (d < w_exit w)%Q -> (w_wait_now w <= d)%Q -> wait_in_time w (Some d) = false.
Proof.
  intros w d Hlt Hle. unfold wait_in_time. apply Qle_bool_false.
  destruct (Qmaxb_cases (d - w_wait_now w) 0) as [E|E]; rewrite E.
  - lra.
  - pose proof (proj1 (Qmaxb_le (d - w_wait_now w) 0)) as M. rewrite E in M. lra.
Qed.

Lemma subprocess_run_late : forall c w t,
  timeout c = Some t -> cmd c <> [] -> w_found w = true ->
  (w_started w + pf_val t < w_exit w)%Q -> subprocess_run c w = RunTimeout.
Proof.
  intros c w t Ht Hc Hf Hl. unfold subprocess_run.
  destruct (cmd c); [congruence|]. rewrite Hf. cbn [negb]. unfold timed_out. rewrite Ht.
  rewrite (Qltb_true _ _ Hl). reflexivity.
Qed.

(** Any call whose child outlives [started + timeout] ends in the kill and
    the timeout message; in streaming mode this needs the final
    [time.monotonic()] before [proc.wait] to be read by the deadline. *)
Lemma timeout_path : forall P pe c w t o,
  timeout c = Some t -> cmd c <> [] -> w_found w = true ->
  (w_started w + pf_val t < w_exit w)%Q ->
  (stream_output c = true -> (w_wait_now w <= w_started w + pf_val t)%Q) ->
  run_command P pe c w = Some o ->
  ro_killed o = true /\
  exists cause, ro_outcome o = Raised (runtime_error (timeout_msg (timeout c) (cmd c)) cause).
Proof.
  intros P pe c w t o Ht Hc Hf Hl Hwn H.
  run_cases H; try congruence; cbn [finish ro_outcome ro_killed].
  all: try (rewrite Ht in Hwait; cbn [option_map] in Hwait;
            rewrite (wait_in_time_late _ _ Hl (Hwn eq_refl)) in Hwait; discriminate Hwait).
  all: try (rewrite (subprocess_run_late _ _ _ Ht Hc Hf Hl) in Hrun; discriminate Hrun).
  all: rewrite ?stop_wakes_kill_killed, ?stop_kill_killed; eauto.
Qed.

Lemma timeout_msg_infix : forall t c,
  infix (pf_str t) (timeout_msg (Some t) c) /\ infix (join_cmd c) (timeout_msg (Some t) c).
Proof.
  intros t c. unfold timeout_msg, py_str_opt_float. split.
  - exists (u "명령 실행이 "), (u "초 안에 끝나지 않았습니다: " ++ join_cmd c). reflexivity.
  - exists (u "명령 실행이 " ++ pf_str t ++ u "초 안에 끝나지 않았습니다: "), [].
    rewrite app_nil_r, <- !app_assoc. reflexivity.
Qed.

Lemma stream_loop_no_deadline : forall w ts s e s',
  stream_loop w None ts s = Some (e, s') -> e = LBreak.
Proof.
  intros w. induction ts as [|tk ts IH]; intros s e s' H; [discriminate|].
  cbn [stream_loop deadline_reached] in H.
  destruct (tk_get tk).
  - eapply IH. exact H.
  - injection H as <- _. reflexivity.
  - destruct (Qle_bool _ _); [destruct (tk_late tk)|];
      try (injection H as <- _; reflexivity); eapply IH; exact H.
Qed.

(** With no timeout the child is never killed. *)
Lemma no_deadline_no_kill : forall P pe c w o,
  timeout c = None -> run_command P pe c w = Some o -> ro_killed o = false.
Proof.
  intros P pe c w o Ht H.
  run_cases H; cbn [finish ro_killed]; try reflexivity.
  all: try (apply stream_loop_killed in Hloop as K; rewrite stop_wakes_killed, K; reflexivity).
  all: try (rewrite Ht in Hwait; discriminate Hwait).
  all: try (rewrite Ht in Hloop; apply stream_loop_no_deadline in Hloop; discriminate Hloop).
  all: try (apply subprocess_run_timeout in Hrun as (_ & _ & t & Ht' & _); congruence).
  all: rewrite stop_wakes_killed; reflexivity.
Qed.

(** C5: when the child outlives the configured timeout [t] (and, in
    streaming mode, the last clock reading before [proc.wait] is taken by
    the deadline), the call kills the child and raises a [RuntimeError]
    whose message is the timeout message, containing [str(timeout)] and the
    command line joined by spaces. *)
Theorem timeout_raises_and_kills : forall P pe c w t o,
  timeout c = Some t -> cmd c <> [] -> w_found w = true ->
  (w_started w + pf_val t < w_exit w)%Q ->
  (stream_output c = true -> (w_wait_now w <= w_started w + pf_val t)%Q) ->
  run_command P pe c w = Some o ->
  ro_killed o = true /\
  exists e, ro_outcome o = Raised e /\ exc_kind e = RuntimeError /\
    exc_msg e = timeout_msg (Some t) (cmd c) /\
    infix (pf_str t) (exc_msg e) /\ infix (join_cmd (cmd c)) (exc_msg e).
Proof.
  intros P pe c w t o Ht Hc Hf Hl Hwn H.
  destruct (timeout_path P pe c w t o Ht Hc Hf Hl Hwn H) as (K & cause & E).
  split; [exact K|]. rewrite Ht in E.
  eexists. split; [exact E|]. cbn [runtime_error exc_kind exc_msg].
  split; [reflexivity|]. split; [reflexivity|]. apply timeout_msg_infix.
Qed.

Lemma timeout_raises_and_kills_witness :
  exists o, run_command sample_prims pe_term (sample_call (sh_cmd "sleep 100") true) w_hang
            = Some o /\ ro_killed o = true /\ exists e, ro_outcome o = Raised e.
Proof.
  eval_run E.
  assert (Hwn : stream_output (sample_call (sh_cmd "sleep 100") true) = true ->
                (w_wait_now w_hang <= w_started w_hang + 5)%Q)
    by (intros _; apply Qle_bool_iff; reflexivity).
  destruct (timeout_raises_and_kills sample_prims pe_term (sample_call (sh_cmd "sleep 100") true) w_hang
              {| pf_val := 5; pf_str := u "5" |} _ eq_refl ltac:(discriminate)
              eq_refl eq_refl Hwn E) as (K & e & He & _).
  split; [exact K|]. exists e. exact He.
Defined.

(** ** Settings and the indicator *)

Lemma run_ind : forall P pe c w o,
  cmd c <> [] -> w_found w = true -> run_command P pe c w = Some o ->
  ro_ind o = if s_show (effective_settings P pe c) && pe_tty pe
             then Some (indicator_args P c (effective_settings P pe c)) else None.
Proof.
  intros P pe c w o Hc Hf H. run_cases H; try congruence; try reflexivity.
  all: destruct (subprocess_run c w); reflexivity.
Qed.

(** C4: each of the four settings is resolved as the per-call argument,
    else the environment override, else the process-wide default; the
    resolution does not depend on [stream_output], and both modes create
    the same indicator (or none) from it. *)
Theorem settings_resolution : forall P pe c,
  effective_settings P pe c = precedence_settings P pe c /\
  (forall b, effective_settings P pe (with_mode c b) = effective_settings P pe c) /\
  (forall w o1 o2, cmd c <> [] -> w_found w = true ->
     run_command P pe (with_mode c true) w = Some o1 ->
     run_command P pe (with_mode c false) w = Some o2 ->
     ro_ind o1 = ro_ind o2 /\
     ro_ind o1 = if s_show (precedence_settings P pe c) && pe_tty pe
                 then Some (indicator_args P c (precedence_settings P pe c)) else None).
Proof.
  intros P pe c.
  assert (Hp : effective_settings P pe c = precedence_settings P pe c) by reflexivity.
  assert (Hm : forall b, effective_settings P pe (with_mode c b) = effective_settings P pe c)
    by reflexivity.
  split; [exact Hp|]. split; [exact Hm|].
  intros w o1 o2 Hc Hf H1 H2.
  apply run_ind in H1; [|exact Hc|exact Hf]. apply run_ind in H2; [|exact Hc|exact Hf].
  rewrite H1, H2, !Hm, <- Hp. split; reflexivity.
Qed.

Lemma settings_resolution_witness :
  exists o1, run_command sample_prims pe_term (with_mode (c_done false) true) (w_done 0)
             = Some o1 /\
  exists o2, run_command sample_prims pe_term (with_mode (c_done false) false) (w_done 0)
             = Some o2 /\ ro_ind o1 = ro_ind o2 /\ ro_ind o1 <> None.
Proof.
  eval_run E1. eval_run E2.
  destruct (settings_resolution sample_prims pe_term (c_done false)) as (_ & _ & H).
  destruct (H (w_done 0) _ _ ltac:(discriminate) eq_refl E1 E2) as [H1 H2].
  split; [exact H1|]. rewrite H2. discriminate.
Defined.

(** ** The failures *)

Lemma not_found_infix : forall c, infix (hd [] c) (not_found_msg c).
Proof.
  intros c. exists (u "필요한 명령을 찾을 수 없습니다: "),
    (u " (gcloud/docker 가 설치되어 있는지 확인하세요)"). reflexivity.
Qed.

Lemma timeout_infix : forall t c,
  infix (py_str_opt_float t) (timeout_msg t c) /\ infix (join_cmd c) (timeout_msg t c).
Proof.
  intros t c. unfold timeout_msg. split.
  - exists (u "명령 실행이 "), (u "초 안에 끝나지 않았습니다: " ++ join_cmd c). reflexivity.
  - exists (u "명령 실행이 " ++ py_str_opt_float t ++ u "초 안에 끝나지 않았습니다: "), [].
    rewrite app_nil_r, <- !app_assoc. reflexivity.
Qed.

Lemma failed_infix : forall c code d,
  infix (join_cmd c) (failed_msg c code d) /\ infix (py_str_int code) (failed_msg c code d).
Proof.
  intros c code d. unfold failed_msg. split.
  - exists (u "명령 실행 실패: "), (u " (exit=" ++ py_str_int code ++ u ")" ++ d). reflexivity.
  - exists (u "명령 실행 실패: " ++ join_cmd c ++ u " (exit="), (u ")" ++ d).
    rewrite <- !app_assoc. reflexivity.
Qed.

(** The three messages never coincide: the first character tells the
    missing-program message apart, the sixth the other two. *)
Lemma messages_distinct : forall c1 c2 t code d,
  not_found_msg c1 <> timeout_msg t c2 /\ not_found_msg c1 <> failed_msg c2 code d /\
  timeout_msg t c1 <> failed_msg c2 code d.
Proof.
  intros c1 c2 t code d. unfold not_found_msg, timeout_msg, failed_msg.
  repeat split; intro E.
  - apply (f_equal (hd 0)) in E. vm_compute in E. discriminate E.
  - apply (f_equal (hd 0)) in E. vm_compute in E. discriminate E.
  - apply (f_equal (nth 5)) in E. apply (f_equal (fun f => f 0)) in E.
    vm_compute in E. discriminate E.
Qed.

(** Without a deadline no [RuntimeError] carries the timeout message. *)
Lemma no_deadline_no_timeout_msg : forall P pe c w o e t,
  timeout c = None -> run_command P pe c w = Some o -> ro_outcome o = Raised e ->
  exc_kind e = RuntimeError -> exc_msg e <> timeout_msg t (cmd c).
Proof.
  intros P pe c w o e t Ht H He Hk.
  run_cases H; cbn [finish ro_outcome] in He; try discriminate He; injection He as <-;
    try discriminate Hk.
  - cbn [runtime_error exc_msg]. intro E. symmetry in E.
    exact (proj2 (proj2 (messages_distinct _ _ _ _ _)) E).
  - rewrite Ht in Hwait. discriminate Hwait.
  - rewrite Ht in Hloop. apply stream_loop_no_deadline in Hloop. discriminate Hloop.
  - destruct (w_start_err w); try discriminate Hk.
    exact (proj1 (messages_distinct _ _ _ 0 [])).
  - apply subprocess_run_start in Hrun as (_ & _ & ->).
    destruct (w_start_err w); try discriminate Hk.
    exact (proj1 (messages_distinct _ _ _ 0 [])).
  - apply subprocess_run_timeout in Hrun as (_ & _ & t' & Ht' & _). congruence.
  - cbn [runtime_error exc_msg]. intro E. symmetry in E.
    exact (proj2 (proj2 (messages_distinct _ _ _ _ _)) E).
Qed.

(** C9: a call that leaves [timeout] out (so [timeout] is the default
    [900.0]), whatever its other arguments and mode, runs under the
    900-second deadline: a child outliving it is killed and the call raises
    the timeout message naming [900.0] and the command line.  The same call
    with [timeout=None] passed explicitly never kills the child, and no
    [RuntimeError] it raises carries a timeout message. *)
Theorem default_timeout_900 : forall P pe c w o o',
  timeout c = default_timeout -> cmd c <> [] -> w_found w = true ->
  (w_started w + 900 < w_exit w)%Q ->
  (stream_output c = true -> (w_wait_now w <= w_started w + 900)%Q) ->
  run_command P pe c w = Some o ->
  run_command P pe (with_timeout c None) w = Some o' ->
  ro_killed o = true /\
  (exists e, ro_outcome o = Raised e /\ exc_kind e = RuntimeError /\
     exc_msg e = timeout_msg default_timeout (cmd c) /\ infix (u "900.0") (exc_msg e) /\
     infix (join_cmd (cmd c)) (exc_msg e)) /\
  ro_killed o' = false /\
  (forall e, ro_outcome o' = Raised e -> exc_kind e = RuntimeError ->
     forall t, exc_msg e <> timeout_msg t (cmd c)).
Proof.
  intros P pe c w o o' Htc Hc Hf Hl Hwn H H'.
  destruct (timeout_path P pe c w {| pf_val := 900; pf_str := u "900.0" |} o
              Htc Hc Hf Hl Hwn H) as (K & cause & E).
  split; [exact K|]. split; [|split].
  - eexists. split; [exact E|]. cbn [runtime_error exc_kind exc_msg].
    rewrite Htc. split; [reflexivity|]. split; [reflexivity|].
    exact (timeout_msg_infix {| pf_val := 900; pf_str := u "900.0" |} (cmd c)).
  - exact (no_deadline_no_kill P pe (with_timeout c None) w o' eq_refl H').
  - intros e He Hk t.
    exact (no_deadline_no_timeout_msg P pe (with_timeout c None) w o' e t eq_refl H' He Hk).
Qed.

Lemma default_timeout_900_witness :
  exists o, run_command sample_prims pe_term (default_call (sh_cmd "sleep 1000") false) w_long
            = Some o /\
  exists o', run_command sample_prims pe_term
               (with_timeout (default_call (sh_cmd "sleep 1000") false) None) w_long = Some o' /\
  ro_killed o = true /\ ro_killed o' = false.
Proof.
  eval_run E. eval_run E'.
  destruct (default_timeout_900 sample_prims pe_term (default_call (sh_cmd "sleep 1000") false)
              w_long _ _ eq_refl ltac:(discriminate) eq_refl eq_refl ltac:(discriminate) E E')
    as (K & _ & K' & _).
  split; [exact K | exact K'].
Defined.

Lemma infix_existsb : forall x a b,
  infix a b -> existsb (Z.eqb x) a = true -> existsb (Z.eqb x) b = true.
Proof.
  intros x a b (p & q & ->) H. rewrite !existsb_app, H.
  rewrite orb_true_r. reflexivity.
Qed.

Lemma start_failure_cases (c : list pystr) (er : os_errno) :
  (exc_kind (start_failure c er) = RuntimeError /\ er = ENOENT /\
   exc_msg (start_failure c er) = not_found_msg c /\
   exc_cause (start_failure c er) = Some FileNotFoundError /\
   infix (hd [] c) (exc_msg (start_failure c er))) \/
  (exc_kind (start_failure c er) <> RuntimeError /\ er <> ENOENT /\
   start_failure c er = os_error_exc c er).
Proof.
  destruct er.
  - left. repeat split; auto. apply not_found_infix.
  - right. repeat split; auto; discriminate.
  - right. repeat split; auto; discriminate.
  - right. repeat split; auto; discriminate.
Qed.

(** C3 (amended): every exception of [run_command] is one of these.  A
    [RuntimeError] with one of three messages that never coincide: the
    missing-program message naming [cmd[0]] only (the executable not found,
    chained from [FileNotFoundError]); the timeout message naming
    [str(timeout)] and the command line, the child killed (chained from
    [TimeoutExpired], or from nothing when the streaming loop's own deadline
    check fires); or the failure message naming the command line and the
    non-zero exit code (chained from [CalledProcessError] in capture mode,
    from nothing in streaming mode).  Or, with its own type, an exception
    no [except] clause catches: the [IndexError] of an empty [cmd], the
    [OSError] of an [exec] failing otherwise than with [ENOENT]
    ([PermissionError], [NotADirectoryError], [OSError]), or in capture
    mode the [UnicodeDecodeError] of output that does not decode. *)
Theorem failure_values : forall P pe c w o e,
  run_command P pe c w = Some o -> ro_outcome o = Raised e ->
  ((exc_kind e = RuntimeError /\ cmd c <> [] /\
    ((w_found w = false /\ w_start_err w = ENOENT /\
      exc_msg e = not_found_msg (cmd c) /\ exc_cause e = Some FileNotFoundError /\
      infix (hd [] (cmd c)) (exc_msg e)) \/
     (w_found w = true /\ ro_killed o = true /\ exc_msg e = timeout_msg (timeout c) (cmd c) /\
      (exc_cause e = Some TimeoutExpired \/ (stream_output c = true /\ exc_cause e = None)) /\
      infix (py_str_opt_float (timeout c)) (exc_msg e) /\ infix (join_cmd (cmd c)) (exc_msg e)) \/
     (w_found w = true /\ ro_killed o = false /\ w_code w <> 0 /\
      (exists d, exc_msg e = failed_msg (cmd c) (w_code w) d) /\
      exc_cause e = (if stream_output c then None else Some CalledProcessError) /\
      infix (join_cmd (cmd c)) (exc_msg e) /\ infix (py_str_int (w_code w)) (exc_msg e)))) \/
   (exc_kind e <> RuntimeError /\
    ((cmd c = [] /\ e = index_error) \/
     (cmd c <> [] /\ w_found w = false /\ w_start_err w <> ENOENT /\
      e = os_error_exc (cmd c) (w_start_err w)) \/
     (stream_output c = false /\ cmd c <> [] /\ w_found w = true /\
      exists m, w_undecodable w = Some m /\ e = decode_error m)))) /\
  (forall c1 c2 t code d, not_found_msg c1 <> timeout_msg t c2 /\
     not_found_msg c1 <> failed_msg c2 code d /\ timeout_msg t c1 <> failed_msg c2 code d).
Proof.
  intros P pe c w o e H He.
  split; [|exact messages_distinct].
  run_cases H; cbn [finish ro_outcome ro_killed] in *; try discriminate He;
    injection He as <-.
  - right. split; [discriminate|]. left. auto.
  - (* streaming, non-zero exit *)
    left. split; [reflexivity|]. split; [congruence|].
    right; right. apply stream_loop_killed in Hloop. apply Z.eqb_neq in Hcode.
    rewrite stop_wakes_killed, Hloop; try rewrite Hmode. cbn [runtime_error exc_msg exc_cause].
    repeat split; auto. eauto.
    all: apply failed_infix.
  - left. split; [reflexivity|]. split; [congruence|].
    right; left. rewrite stop_wakes_kill_killed. cbn [runtime_error exc_msg exc_cause].
    repeat split; auto; apply timeout_infix.
  - left. split; [reflexivity|]. split; [congruence|].
    right; left. rewrite stop_wakes_kill_killed. cbn [runtime_error exc_msg exc_cause].
    repeat split; auto; apply timeout_infix.
  - apply negb_true_iff in Hfound.
    match goal with |- context [start_failure ?x ?y] =>
      destruct (start_failure_cases x y) as [(Hk & Hen & Hm & Hcs & Hi) | (Hk & Hen & Heq)] end.
    + left. split; [exact Hk|]. split; [congruence|]. left. auto.
    + right. split; [exact Hk|]. right; left. repeat split; auto. congruence.
  - right. split; [discriminate|]. left. apply subprocess_run_index in Hrun. auto.
  - apply subprocess_run_start in Hrun as (Hc & Hf & ->).
    destruct (start_failure_cases (cmd c) (w_start_err w))
      as [(Hk & Hen & Hm & Hcs & Hi) | (Hk & Hen & Heq)].
    + left. split; [exact Hk|]. split; [exact Hc|]. left. auto.
    + right. split; [exact Hk|]. right; left. auto.
  - apply subprocess_run_timeout in Hrun as (Hc & Hf & _).
    left. split; [reflexivity|]. split; [exact Hc|].
    right; left. rewrite stop_kill_killed. cbn [runtime_error exc_msg exc_cause].
    repeat split; auto; apply timeout_infix.
  - apply subprocess_run_decode in Hrun as (Hc & Hf & _ & Hu).
    right. split; [discriminate|]. right; right. eauto 6.
  - apply subprocess_run_failed in Hrun as (Hc & Hf & _ & _ & -> & Hz).
    left. split; [reflexivity|]. split; [exact Hc|].
    right; right. rewrite stop_wakes_killed; try rewrite Hmode. cbn [runtime_error exc_msg exc_cause].
    repeat split; auto. eauto.
    all: apply failed_infix.
Qed.

(** C3, as stated, fails: a missing program, a timeout and a non-zero exit
    all raise [RuntimeError] (so no [except] clause on the type separates
    them), and the missing-program message does not carry the command line
    [gcloud builds submit]: it names [gcloud] only. *)
Lemma failure_types_coincide :
  exists o1, run_command sample_prims pe_pipe (missing_call false) w_missing = Some o1 /\
  exists o2, run_command sample_prims pe_pipe (sample_call (sh_cmd "sleep 100") false) w_hang
             = Some o2 /\
  exists o3, run_command sample_prims pe_pipe (c_done false) (w_done 1) = Some o3 /\
  exists e1 e2 e3,
    ro_outcome o1 = Raised e1 /\ ro_outcome o2 = Raised e2 /\ ro_outcome o3 = Raised e3 /\
    exc_kind e1 = RuntimeError /\ exc_kind e2 = RuntimeError /\ exc_kind e3 = RuntimeError /\
    ~ infix (join_cmd (cmd (missing_call false))) (exc_msg e1).
Proof.
  eval_run E1. eval_run E2. eval_run E3.
  do 3 eexists. split; [reflexivity|]. split; [reflexivity|]. split; [reflexivity|].
  split; [reflexivity|]. split; [reflexivity|]. split; [reflexivity|].
  intro Hi. apply (infix_existsb 98) in Hi; [|vm_compute; reflexivity].
  vm_compute in Hi. discriminate Hi.
Qed.

Lemma failure_values_witness :
  exists o, run_command sample_prims pe_pipe (c_done false) (w_done 1) = Some o /\
  exists e, ro_outcome o = Raised e /\ exc_kind e = RuntimeError.
Proof.
  eval_run E. eexists. split; [reflexivity|].
  destruct (failure_values _ _ _ _ _ _ E eq_refl) as [[(Hk & _) | (Hk & _)] _].
  - exact Hk.
  - vm_compute in Hk. exfalso. exact (Hk eq_refl).
Defined.

Lemma ind_clear_idle : forall s,
  rs_last (ind_clear s) = rs_last s /\ rs_renders (ind_clear s) = rs_renders s /\
  option_map ind_idle_seconds (rs_ind (ind_clear s)) = option_map ind_idle_seconds (rs_ind s).
Proof.
  intros s. unfold ind_clear. destruct (rs_ind s) as [i|] eqn:E.
  - destruct (ind_shown i); repeat split; try reflexivity. rewrite E. reflexivity.
  - rewrite E. auto.
Qed.

(** Wake-ups that all come before the idle threshold render nothing. *)
Lemma wakes_below_threshold : forall ts s i,
  rs_ind s = Some i ->
  (forall now, In now ts -> (now - rs_last s < ind_idle_seconds i)%Q) ->
  rs_renders (ind_wakes s ts) = rs_renders s.
Proof.
  induction ts as [|t ts IH]; intros s i Hi Hb; [reflexivity|].
  unfold ind_wakes. cbn [fold_left].
  assert (Hw : ind_wake s t = ind_clear s).
  { unfold ind_wake. rewrite Hi. rewrite Qltb_true; [reflexivity|]. apply Hb. left. reflexivity. }
  rewrite Hw. destruct (ind_clear_idle s) as (L & R & I).
  rewrite Hi in I. destruct (rs_ind (ind_clear s)) as [i'|] eqn:Ei'; [|discriminate I].
  injection I as I. rewrite <- R.
  apply (IH _ i'); [exact Ei'|]. intros now Hin. rewrite L, I. apply Hb. right. exact Hin.
Qed.

(** C7, as stated, fails: in the capture mode the indicator thread is
    started before [subprocess.run], so with an idle threshold of 0 its
    first pass renders a frame before the missing program is reported. *)
Lemma not_found_after_render :
  exists o, run_command sample_prims pe_term (missing_call false) w_missing = Some o /\
  ro_renders o = 1%nat /\
  exists e, ro_outcome o = Raised e /\ exc_msg e = not_found_msg (cmd (missing_call false)).
Proof.
  eval_run E. split; [reflexivity|]. eexists. split; reflexivity.
Qed.

(** The indicator thread renders once per pass that comes at least the
    idle threshold after the last activity, which no pass moves. *)
Lemma ind_wakes_renders : forall ts s i,
  rs_ind s = Some i ->
  rs_renders (ind_wakes s ts) =
    (rs_renders s + length (filter (fun now => negb (Qltb (now - rs_last s)
                                                          (ind_idle_seconds i))) ts))%nat.
Proof.
  induction ts as [|t ts IH]; intros s i Hi; [cbn; lia|].
  unfold ind_wakes. cbn [fold_left filter]. fold (ind_wakes (ind_wake s t) ts).
  unfold ind_wake at 1. rewrite Hi.
  destruct (Qltb (t - rs_last s) (ind_idle_seconds i)) eqn:Et; cbn [negb].
  - destruct (ind_clear_idle s) as (L & R & I).
    rewrite Hi in I. destruct (rs_ind (ind_clear s)) as [i'|] eqn:Ei'; [|discriminate I].
    injection I as I. rewrite (IH _ i' Ei'), L, I, R. reflexivity.
  - destruct (pl_render (ind_line i) (ind_idx i) (t - ind_start i)%Q) as [l x].
    rewrite (IH (set_ind s (Some (with_line i l true (ind_idx i + 1))) (rs_err s ++ [x])
                         (S (rs_renders s))) (with_line i l true (ind_idx i + 1)) eq_refl).
    cbn [rs_renders rs_last set_ind length ind_idle_seconds with_line]. lia.
Qed.

(** C7 (amended): for a non-existent program ([exec] fails with [ENOENT])
    the call raises a [RuntimeError] chained from [FileNotFoundError] whose
    message is the missing-program message naming [cmd[0]], without killing
    anything.  In streaming mode no indicator is created (the error comes
    from [Popen], before it), so nothing is rendered or written to
    [sys.stderr].  In capture mode the indicator thread runs while
    [subprocess.run] fails, and it renders exactly once for each of its
    passes that comes at least the resolved idle threshold ([max(0, idle)])
    after the start, when progress can render; so nothing is rendered iff
    every pass comes within the threshold or progress cannot render. *)
Theorem not_found_outcome : forall P pe c w o,
  cmd c <> [] -> w_found w = false -> w_start_err w = ENOENT ->
  run_command P pe c w = Some o ->
  (exists e, ro_outcome o = Raised e /\ exc_kind e = RuntimeError /\
     exc_msg e = not_found_msg (cmd c) /\ exc_cause e = Some FileNotFoundError /\
     infix (hd [] (cmd c)) (exc_msg e)) /\
  ro_killed o = false /\
  (stream_output c = true -> ro_ind o = None /\ ro_renders o = 0%nat /\ ro_err o = []) /\
  (stream_output c = false ->
   ro_renders o =
     if s_show (effective_settings P pe c) && pe_tty pe
     then length (filter (fun now => negb (Qltb (now - w_started w)
                                               (Qmaxb (s_idle (effective_settings P pe c)) 0)))
                         (w_wakes w))
     else 0%nat).
Proof.
  intros P pe c w o Hc Hf Hen H.
  run_cases H; try congruence.
  - cbn [finish ro_outcome ro_killed ro_ind ro_renders ro_err init_state rs_killed rs_renders
         rs_err]. split; [|split; [reflexivity|split; [auto|congruence]]].
    rewrite Hen. eexists. split; [reflexivity|]. repeat split; try reflexivity.
    apply not_found_infix.
  - apply subprocess_run_index in Hrun. congruence.
  - apply subprocess_run_start in Hrun as (_ & _ & ->).
    cbn [finish ro_outcome ro_killed ro_renders]. rewrite Hen, stop_wakes_killed.
    split; [|split; [reflexivity|split; [congruence|]]].
    + eexists. split; [reflexivity|]. repeat split; try reflexivity.
      apply not_found_infix.
    + intros _. unfold ind_stop.
      rewrite (proj1 (proj2 (ind_clear_idle _))).
      match goal with |- context [if ?b then _ else _] => destruct b eqn:Eb end.
      * change (s_show (effective_settings P pe c) && pe_tty pe = true) in Eb. rewrite Eb.
        erewrite ind_wakes_renders by reflexivity. reflexivity.
      * change (s_show (effective_settings P pe c) && pe_tty pe = false) in Eb. rewrite Eb.
        rewrite ind_wakes_none; reflexivity.
  - apply subprocess_run_timeout in Hrun. destruct Hrun as (_ & Hf' & _). congruence.
  - apply subprocess_run_decode in Hrun. destruct Hrun as (_ & Hf' & _). congruence.
  - apply subprocess_run_failed in Hrun. destruct Hrun as (_ & Hf' & _). congruence.
  - apply subprocess_run_done in Hrun. destruct Hrun as (_ & Hf' & _). congruence.
Qed.

Lemma not_found_outcome_witness :
  exists o, run_command sample_prims pe_term (missing_call true) w_missing = Some o /\
  ro_renders o = 0%nat /\ exists e, ro_outcome o = Raised e /\ exc_kind e = RuntimeError.
Proof.
  eval_run E.
  destruct (not_found_outcome sample_prims pe_term (missing_call true) w_missing _
              ltac:(discriminate) eq_refl eq_refl E)
    as ((e & He & Hk & _) & _ & Hs & _).
  split; [exact (proj1 (proj2 (Hs eq_refl)))|]. exists e. auto.
Defined.

(** ** [textwrap.shorten] *)

Lemma zlen_app : forall {A} (a b : list A), zlen (a ++ b) = zlen a + zlen b.
Proof. intros. unfold zlen. rewrite length_app. lia. Qed.

Lemma zlen_nonneg : forall {A} (a : list A), 0 <= zlen a.
Proof. intros. unfold zlen. lia. Qed.

Lemma lstrip_nil_iff : forall l, lstrip l = [] <-> forallb py_isspace l = true.
Proof.
  induction l as [|a l IH]; cbn [lstrip forallb]; [tauto|].
  destruct (py_isspace a); cbn [andb]; [exact IH|]. split; discriminate.
Qed.

Lemma lstrip_forallb : forall l, forallb py_isspace (lstrip l) = forallb py_isspace l.
Proof.
  induction l as [|a l IH]; [reflexivity|]. cbn [lstrip forallb].
  destruct (py_isspace a) eqn:E; [exact IH|]. cbn [forallb]. rewrite E. reflexivity.
Qed.

Lemma forallb_rev' : forall f (l : pystr), forallb f (rev l) = forallb f l.
Proof.
  intros f l. induction l as [|a l IH]; [reflexivity|].
  cbn [rev forallb]. rewrite forallb_app, IH. cbn [forallb].
  rewrite andb_true_r, andb_comm. reflexivity.
Qed.

Lemma is_blank_spec : forall l, is_blank l = forallb py_isspace l.
Proof.
  intros l. unfold is_blank, py_strip.
  destruct (rev (lstrip (rev (lstrip l)))) as [|a r] eqn:E.
  - apply (f_equal (@rev Z)) in E. rewrite rev_involutive in E. cbn [rev] in E.
    apply lstrip_nil_iff in E. rewrite forallb_rev', lstrip_forallb in E. congruence.
  - destruct (forallb py_isspace l) eqn:F; [|reflexivity].
    rewrite <- lstrip_forallb, <- forallb_rev' in F. apply lstrip_nil_iff in F.
    rewrite F in E. discriminate E.
Qed.

Lemma not_blank_head : forall a l, py_isspace a = false -> is_blank (a :: l) = false.
Proof. intros a l H. rewrite is_blank_spec. cbn [forallb]. rewrite H. reflexivity. Qed.

Lemma py_split_go_words : forall s cur,
  forallb (fun c => negb (py_isspace c)) cur = true ->
  forall x, In x (py_split_go s cur) ->
  x <> [] /\ forallb (fun c => negb (py_isspace c)) x = true.
Proof.
  induction s as [|c s IH]; intros cur Hcur x Hx; cbn [py_split_go] in Hx.
  - destruct cur as [|a cur]; [destruct Hx|]. destruct Hx as [<- | []].
    split; [|rewrite forallb_rev'; exact Hcur].
    intro E. apply (f_equal (@length Z)) in E. rewrite length_rev in E. discriminate E.
  - destruct (py_isspace c) eqn:Ec.
    + destruct cur as [|a cur']; [exact (IH [] eq_refl x Hx)|].
      destruct Hx as [<- | Hx]; [|exact (IH [] eq_refl x Hx)].
      split; [|rewrite forallb_rev'; exact Hcur].
      intro E. apply (f_equal (@length Z)) in E. rewrite length_rev in E. discriminate E.
    + apply (IH (c :: cur)); [|exact Hx]. cbn [forallb]. rewrite Ec, Hcur. reflexivity.
Qed.

Lemma join_edges : forall ws,
  (forall x, In x ws -> x <> [] /\ forallb (fun c => negb (py_isspace c)) x = true) ->
  py_join [32] ws <> [] -> first_ok (py_join [32] ws) /\ last_ok (py_join [32] ws).
Proof.
  induction ws as [|x ws IH]; intros Hw Hne; [exfalso; apply Hne; reflexivity|].
  destruct (Hw x (or_introl eq_refl)) as [Hx Fx].
  assert (Hfirst : forall t, first_ok (x ++ t)).
  { intros t a r E. destruct x as [|b x]; [exfalso; apply Hx; reflexivity|].
    injection E as -> _. cbn [forallb] in Fx. apply andb_true_iff in Fx as [Fa _].
    apply negb_true_iff in Fa. exact Fa. }
  destruct ws as [|y ws].
  - cbn [py_join]. split.
    + rewrite <- (app_nil_r x). apply Hfirst.
    + intros p a E. assert (Ha : In a x) by (rewrite E; apply in_or_app; right; left; reflexivity).
      rewrite forallb_forall in Fx. apply Fx in Ha. apply negb_true_iff in Ha. exact Ha.
  - change (py_join [32] (x :: y :: ws)) with (x ++ [32] ++ py_join [32] (y :: ws)).
    split; [apply Hfirst|].
    assert (Hy : py_join [32] (y :: ws) <> []).
    { destruct (Hw y (or_intror (or_introl eq_refl))) as [Hy _].
      destruct ws; cbn [py_join]; [exact Hy|].
      destruct y as [|b y]; [exfalso; apply Hy; reflexivity|]. cbn [app]. discriminate. }
    destruct (IH (fun z Hz => Hw z (or_intror Hz)) Hy) as [_ HL].
    intros p a E. destruct (exists_last Hy) as (J & b & EJ).
    rewrite EJ in E. rewrite !app_assoc in E. apply app_inj_tail in E as [_ <-].
    apply (HL J). exact EJ.
Qed.

Lemma normalize_edges : forall t, normalize_ws t <> [] ->
  first_ok (normalize_ws t) /\ last_ok (normalize_ws t).
Proof.
  intros t H. apply join_edges; [|exact H].
  intros x Hx. apply (py_split_go_words _ [] eq_refl x Hx).
Qed.

Lemma tail_space_nil : forall l p S,
  last_ok l -> l = p ++ S -> forallb py_isspace S = true -> S = [].
Proof.
  intros l p S HL E F. destruct S as [|s S]; [reflexivity|].
  assert (Hne : s :: S <> []) by discriminate.
  destruct (exists_last Hne) as (S' & a & ES). rewrite ES in E, F.
  rewrite app_assoc in E. apply HL in E. rewrite forallb_app in F. cbn [forallb] in F.
  rewrite E in F. rewrite andb_false_r in F. discriminate F.
Qed.

Lemma take_fitting_spec : forall chunks cl len w rest cl' len',
  take_fitting chunks cl len w = (rest, cl', len') ->
  exists taken, chunks = taken ++ rest /\ cl' = cl ++ taken /\
    len' = len + zlen (concat taken) /\ (len <= w -> len' <= w) /\
    (rest = [] \/ exists c r, rest = c :: r /\ w < len' + zlen c).
Proof.
  induction chunks as [|c r IH]; intros cl len w rest cl' len' H; cbn [take_fitting] in H.
  - injection H as <- <- <-. exists []. rewrite !app_nil_r.
    repeat split; auto. unfold zlen. cbn. lia.
  - destruct (len + zlen c <=? w) eqn:E.
    + apply Z.leb_le in E.
      apply IH in H as (taken & -> & -> & -> & Hle & Hrest). exists (c :: taken).
      cbn [concat]. rewrite zlen_app, <- app_assoc.
      split; [reflexivity|]. split; [reflexivity|]. split; [lia|].
      split; [intros _; specialize (Hle E); lia | exact Hrest].
    + apply Z.leb_gt in E. injection H as <- <- <-. exists [].
      rewrite app_nil_r. change (zlen (concat [])) with 0. split; [reflexivity|].
      split; [reflexivity|]. split; [lia|]. split; [lia|]. right. eauto.
Qed.

Lemma long_word_step_spec : forall rest cl len w rest2 cl2 len2,
  long_word_step rest cl len w = (rest2, cl2, len2) ->
  (rest2 = rest /\ cl2 = cl /\ len2 = len /\ forall c r, rest = c :: r -> zlen c <= w) \/
  (exists c r e, rest = c :: r /\ w < zlen c /\ rest2 = skipn e c :: r /\
     cl2 = cl ++ [firstn e c] /\ len2 = zlen (concat cl2) /\
     (len = 0 -> 1 <= w -> (1 <= e)%nat)).
Proof.
  intros rest cl len w rest2 cl2 len2 H. unfold long_word_step in H.
  destruct rest as [|c r].
  - injection H as <- <- <-. left. repeat split. intros c r E. discriminate E.
  - destruct (zlen c >? w) eqn:Ez.
    + right. apply Z.gtb_lt in Ez. unfold handle_long_word in H. cbv beta iota zeta in H.
      assert (Hsl : len = 0 -> 1 <= w -> (if w <? 1 then 1 else w - len) = w).
      { intros -> Hw. destruct (w <? 1) eqn:E1; [apply Z.ltb_lt in E1; lia | lia]. }
      destruct (zlen c >? (if w <? 1 then 1 else w - len)) eqn:Eg;
        [destruct (_ && _) eqn:Eh|].
      * injection H as <- <- <-. exists c, r, (Z.to_nat (py_rfind 45 c
          (if w <? 1 then 1 else w - len) + 1)).
        repeat split; auto. intros _ _. apply andb_true_iff in Eh as [Eh _].
        apply Z.gtb_lt in Eh. lia.
      * injection H as <- <- <-. eexists c, r, _. repeat split; auto.
        intros H0 Hw. rewrite (Hsl H0 Hw). lia.
      * injection H as <- <- <-. eexists c, r, _. repeat split; auto.
        intros H0 Hw. rewrite (Hsl H0 Hw). lia.
    + injection H as <- <- <-. left. repeat split.
      intros c' r' E. injection E as <- <-. rewrite Z.gtb_ltb in Ez. apply Z.ltb_ge in Ez. lia.
Qed.

Lemma drop_trailing_spec : forall cl len cl3 len3,
  drop_trailing_blank cl len = (cl3, len3) -> len = zlen (concat cl) -> head_ok cl ->
  cl3 <> [] /\ len3 = zlen (concat cl3) /\ (exists T, cl = cl3 ++ T) /\
  exists B, concat cl = concat cl3 ++ B /\ forallb py_isspace B = true.
Proof.
  intros cl len cl3 len3 H Hlen Hh. unfold drop_trailing_blank in H.
  destruct (rev cl) as [|last before] eqn:E;
    destruct Hh as (a & r & rest & -> & Ha).
  - apply (f_equal (@length pystr)) in E. rewrite length_rev in E. discriminate E.
  - apply (f_equal (@rev pystr)) in E. rewrite rev_involutive in E. cbn [rev] in E.
    destruct (is_blank last) eqn:Eb.
    + injection H as <- <-.
      assert (Hne : rev before <> []).
      { intro Hn. rewrite Hn in E. cbn [app] in E. injection E as E _. subst last.
        rewrite not_blank_head in Eb; [discriminate Eb | exact Ha]. }
      split; [exact Hne|].
      rewrite E, concat_app in Hlen. cbn [concat] in Hlen. rewrite app_nil_r in Hlen.
      rewrite zlen_app in Hlen. split; [lia|]. split; [exists [last]; exact E|].
      exists last. rewrite E, concat_app. cbn [concat]. rewrite app_nil_r.
      split; [reflexivity|]. rewrite <- is_blank_spec. exact Eb.
    + injection H as <- <-. split; [discriminate|]. split; [exact Hlen|].
      split; [exists []; rewrite app_nil_r; reflexivity|].
      exists []. rewrite app_nil_r. split; reflexivity.
Qed.

Lemma place_placeholder_spec : forall w ph rline cur l,
  cur = zlen (concat (rev rline)) -> place_placeholder rline cur w ph = Some l ->
  exists pre suf, rev rline = pre ++ suf /\ l = concat pre ++ ph /\
    zlen (concat pre) + zlen ph <= w /\ concat pre <> [].
Proof.
  intros w ph. induction rline as [|last before IH]; intros cur l Hc H; [discriminate H|].
  cbn [place_placeholder] in H.
  destruct (negb (is_blank last) && (cur + zlen ph <=? w)) eqn:E.
  - injection H as <-. apply andb_true_iff in E as [Enb E]. apply Z.leb_le in E.
    exists (rev (last :: before)), []. rewrite app_nil_r.
    split; [reflexivity|]. split; [reflexivity|]. split; [rewrite <- Hc; exact E|].
    cbn [rev]. rewrite concat_app. cbn [concat]. rewrite app_nil_r. intro Hn.
    apply app_eq_nil in Hn as [_ Hn]. subst last. vm_compute in Enb. discriminate Enb.
  - apply IH in H as (pre & suf & Hr & -> & Hle & Hnn).
    + exists pre, (suf ++ [last]). cbn [rev]. rewrite Hr, app_assoc.
      repeat split; auto.
    + rewrite Hc. cbn [rev]. rewrite concat_app. cbn [concat]. rewrite app_nil_r, zlen_app.
      lia.
Qed.

(** When no non-blank prefix of the line leaves room for the placeholder,
    not even its first chunk (when that chunk is not blank) does. *)
Lemma place_placeholder_none : forall w ph rline cur x xs,
  cur = zlen (concat (rev rline)) -> rev rline = x :: xs -> is_blank x = false ->
  place_placeholder rline cur w ph = None -> w < zlen x + zlen ph.
Proof.
  intros w ph. induction rline as [|last before IH]; intros cur x xs Hc Hr Hx H;
    [discriminate Hr|].
  cbn [place_placeholder] in H.
  destruct (negb (is_blank last) && (cur + zlen ph <=? w)) eqn:E; [discriminate H|].
  cbn [rev] in Hr, Hc. rewrite concat_app, zlen_app in Hc. cbn [concat] in Hc.
  rewrite app_nil_r in Hc.
  destruct (rev before) as [|y ys] eqn:Erb.
  - cbn [app] in Hr. injection Hr as Hlx _. subst last. rewrite Hx in E.
    cbn [negb andb] in E. apply Z.leb_gt in E. cbn [concat] in Hc.
    change (zlen (@nil Z)) with 0 in Hc. lia.
  - cbn [app] in Hr. injection Hr as Hyx _. subst y.
    apply (IH (cur - zlen last) x ys); first [exact Hx | exact H | reflexivity | exact Erb | lia].
Qed.

Lemma wrap_loop_done : forall f w ph rest x,
  (rest = [] \/ exists c, rest = [c] /\ is_blank c = true) ->
  wrap_loop f w ph rest [x] = [x].
Proof.
  intros f w ph rest x H. destruct f as [|f]; [reflexivity|].
  destruct H as [-> | (c & -> & Hc)]; [reflexivity|].
  cbn [wrap_loop]. rewrite Hc. cbn. destruct f; reflexivity.
Qed.

Lemma lstrip_zlen : forall l, zlen (lstrip l) <= zlen l.
Proof.
  induction l as [|a l IH]; [cbn; lia|]. cbn [lstrip].
  destruct (py_isspace a); [|lia]. unfold zlen in *. cbn [length]. lia.
Qed.

Lemma head_ok_of : forall x xs T nt,
  x <> [] -> nt = concat (x :: xs) ++ T -> first_ok nt -> head_ok (x :: xs).
Proof.
  intros x xs T nt Hx E Hf. destruct x as [|a r]; [contradiction|].
  exists a, r, xs. split; [reflexivity|]. apply (Hf a (r ++ concat xs ++ T)).
  rewrite E. cbn [concat app]. rewrite app_assoc. reflexivity.
Qed.

(** The first pass of [_wrap_chunks] with no line yet: the line it yields
    fits, is the whole text when the text fits, and is otherwise a non-empty
    prefix of the text followed by the placeholder, or the placeholder
    stripped, which happens only when the first chunk and the placeholder
    together do not fit. *)
Lemma wrap_first : forall f w ph nt chunks,
  concat chunks = nt -> Forall (fun c => c <> []) chunks ->
  first_ok nt -> last_ok nt -> 1 <= w -> zlen ph <= w ->
  let r := py_join NL (wrap_loop (S f) w ph chunks []) in
  zlen r <= w /\ (zlen nt <= w -> r = nt) /\
  (w < zlen nt ->
   (exists p q, p <> [] /\ nt = p ++ q /\ r = p ++ ph) \/
   (r = lstrip ph /\ exists c rest, chunks = c :: rest /\ w - zlen ph < zlen c)).
Proof.
  intros f w ph nt chunks Hcat Hne Hf Hl Hw Hph r. subst r.
  destruct chunks as [|c0 cs].
  { cbn in Hcat |- *. subst nt. change (zlen (@nil Z)) with 0. split; [lia|]. split; [auto|]. lia. }
  cbn [wrap_loop].
  destruct (take_fitting (c0 :: cs) [] 0 w) as [[rest1 cl1] len1] eqn:E1.
  destruct (long_word_step rest1 cl1 len1 w) as [[rest2 cl2] len2] eqn:E2.
  destruct (drop_trailing_blank cl2 len2) as [cl3 len3] eqn:E3.
  apply take_fitting_spec in E1 as (taken & Ech & -> & Hlen1 & Hle1 & Hrest1).
  cbn [app] in Hlen1, E2. specialize (Hle1 ltac:(lia)).
  assert (Hc0 : c0 <> []) by (inversion Hne; assumption).
  assert (Hfacts : nt = concat cl2 ++ concat rest2 /\ len2 = zlen (concat cl2) /\
                   (head_ok cl2 /\ exists ys k, cl2 = firstn k c0 :: ys) /\
                   (zlen nt <= w -> rest2 = [])).
  { apply long_word_step_spec in E2 as [(-> & -> & -> & Hlong) | (c & r & e & -> & Hc & -> & -> & -> & He)].
    - destruct taken as [|t0 ts].
      + cbn [app] in Ech. destruct Hrest1 as [-> | (c & r & E & Hlt)]; [discriminate Ech|].
        rewrite <- Ech in E. injection E as <- <-. specialize (Hlong c0 cs (eq_sym Ech)).
        change (zlen (concat [])) with 0 in Hlen1. lia.
      + cbn [app] in Ech. injection Ech as <- ->.
        assert (Hnt : nt = concat (c0 :: ts) ++ concat rest1)
          by (rewrite <- Hcat; cbn [concat]; rewrite concat_app, app_assoc; reflexivity).
        split; [exact Hnt|]. split; [lia|].
        split; [split; [exact (head_ok_of _ _ _ _ Hc0 Hnt Hf)|]|].
        { exists ts, (length c0). rewrite firstn_all. reflexivity. }
        intros Hnw. destruct Hrest1 as [-> | (c & r & -> & Hlt)]; [reflexivity|].
        exfalso. rewrite Hnt, zlen_app in Hnw. change (concat (c :: r)) with (c ++ concat r) in Hnw.
        rewrite zlen_app in Hnw. pose proof (zlen_nonneg (concat r)). unfold pystr in *. lia.
    - assert (Hnt : nt = concat (taken ++ [firstn e c]) ++ concat (skipn e c :: r)).
      { rewrite <- Hcat, Ech, !concat_app. cbn [concat]. rewrite !app_nil_r, <- app_assoc.
        rewrite (app_assoc (firstn e c)), firstn_skipn. reflexivity. }
      split; [exact Hnt|]. split; [reflexivity|]. split.
      + destruct taken as [|t0 ts].
        * cbn [app] in Ech, Hnt |- *. injection Ech as <- <-.
          change (zlen (concat [])) with 0 in Hlen1.
          specialize (He Hlen1 Hw). split; [|exists [], e; reflexivity].
          refine (head_ok_of (firstn e c0) [] _ nt _ Hnt Hf).
          destruct c0 as [|a c0]; [contradiction|]. destruct e as [|e]; [lia|]. discriminate.
        * cbn [app] in Ech, Hnt |- *. injection Ech as <- _.
          split; [exact (head_ok_of _ _ _ _ Hc0 Hnt Hf)|].
          exists (ts ++ [firstn e c]), (length c0). rewrite firstn_all. reflexivity.
      + intros Hnw. exfalso. rewrite <- Hcat, Ech, concat_app, zlen_app in Hnw.
        cbn [concat] in Hnw. rewrite zlen_app in Hnw.
        pose proof (zlen_nonneg (concat taken)). pose proof (zlen_nonneg (concat r)). lia. }
  destruct Hfacts as (Hnt2 & Hlen2 & (Hh2 & ys & k & Ecl2) & Hfit).
  destruct (drop_trailing_spec _ _ _ _ E3 Hlen2 Hh2) as (Hne3 & Hlen3 & (T & HT) & B & HB & FB).
  rewrite HB, <- app_assoc in Hnt2.
  cbv beta iota zeta.
  destruct cl3 as [|x xs]; [contradiction|].
  assert (Hx : x = firstn k c0 /\ is_blank x = false).
  { rewrite Ecl2 in HT. cbn [app] in HT. injection HT as Hx _. split; [exact (eq_sym Hx)|].
    destruct Hh2 as (a & r0 & rest0 & Ea & Ha). rewrite Ecl2 in Ea. injection Ea as Ea _.
    rewrite <- Hx, Ea. exact (not_blank_head a r0 Ha). }
  destruct ((match rest2 with [] => true | [c] => is_blank c | _ => false end) && (len3 <=? w))
    eqn:Eb.
  - apply andb_true_iff in Eb as [Erb Ew]. apply Z.leb_le in Ew.
    assert (Hrest2 : rest2 = [] \/ exists c, rest2 = [c] /\ is_blank c = true).
    { destruct rest2 as [|c [|c' r']]; [left; reflexivity | right; eauto | discriminate Erb]. }
    cbn [app]. rewrite wrap_loop_done by exact Hrest2. cbn [py_join].
    assert (HS : B ++ concat rest2 = []).
    { apply (tail_space_nil nt (concat (x :: xs))); [exact Hl | exact Hnt2|].
      rewrite forallb_app, FB. cbn [andb].
      destruct Hrest2 as [-> | (c & -> & Hc)]; [reflexivity|].
      cbn [concat]. rewrite app_nil_r, <- is_blank_spec. exact Hc. }
    rewrite HS, app_nil_r in Hnt2. rewrite <- Hnt2. rewrite <- Hnt2 in Hlen3.
    split; [lia|]. split; [reflexivity|]. lia.
  - assert (Hlt : w < zlen nt).
    { destruct (Z_lt_le_dec w (zlen nt)) as [H|H]; [exact H|].
      pose proof (Hfit H) as E0. rewrite E0 in Hnt2, Eb. exfalso.
      assert (H3 : len3 <= w).
      { rewrite Hnt2, zlen_app in H. pose proof (zlen_nonneg (B ++ concat (@nil pystr))).
        unfold pystr in *. lia. }
      apply Z.leb_le in H3. rewrite H3 in Eb. discriminate Eb. }
    split; [|split; [lia|intros _]].
    + destruct (place_placeholder (rev (x :: xs)) len3 w ph) as [l|] eqn:Ep.
      * cbn [app py_join].
        apply place_placeholder_spec in Ep as (pre & suf & _ & -> & Hle & _);
          [rewrite zlen_app; exact Hle | rewrite rev_involutive; exact Hlen3].
      * cbn [rev app py_join]. pose proof (lstrip_zlen ph). lia.
    + destruct (place_placeholder (rev (x :: xs)) len3 w ph) as [l|] eqn:Ep.
      * cbn [app py_join]. left.
        apply place_placeholder_spec in Ep as (pre & suf & Hpre & -> & _ & Hnn);
          [| rewrite rev_involutive; exact Hlen3].
        rewrite rev_involutive in Hpre.
        exists (concat pre), (concat suf ++ B ++ concat rest2).
        split; [exact Hnn|]. split; [|reflexivity].
        rewrite Hnt2, Hpre, concat_app, <- app_assoc. reflexivity.
      * cbn [rev app py_join]. right. split; [reflexivity|]. exists c0, cs.
        split; [reflexivity|]. destruct Hx as [Hxk Hxb].
        pose proof (place_placeholder_none w ph (rev (x :: xs)) len3 x xs
                      ltac:(rewrite rev_involutive; exact Hlen3)
                      ltac:(rewrite rev_involutive; reflexivity) Hxb Ep) as Hn.
        assert (Hk : zlen x <= zlen c0)
          by (rewrite Hxk; unfold zlen; rewrite length_firstn; lia).
        lia.
Qed.

(** [textwrap.shorten] on any chunker that cuts the text into non-empty
    pieces: the result fits in [width], is the whitespace-collapsed text when
    that fits, and otherwise a non-empty prefix of it followed by the
    placeholder, or, only when the first chunk of the collapsed text and the
    placeholder together exceed [width], the placeholder with its leading
    whitespace stripped. *)
Lemma shorten_spec : forall split text w ph,
  (forall s, concat (split s) = s) -> (forall s, Forall (fun c => c <> []) (split s)) ->
  1 <= w -> zlen ph <= w ->
  let nt := normalize_ws text in let r := shorten split text w ph in
  zlen r <= w /\ (zlen nt <= w -> r = nt) /\
  (w < zlen nt ->
   (exists p q, p <> [] /\ nt = p ++ q /\ r = p ++ ph) \/
   (r = lstrip ph /\ exists c rest, split nt = c :: rest /\ w - zlen ph < zlen c)).
Proof.
  intros split text w ph Hcat Hne Hw Hph nt r. subst nt r. unfold shorten.
  assert (Hedges : first_ok (normalize_ws text) /\ last_ok (normalize_ws text)).
  { destruct (normalize_ws text) as [|a t] eqn:E.
    - split; [intros a r H; discriminate H | intros p a H; destruct p; discriminate H].
    - rewrite <- E. apply normalize_edges. rewrite E. discriminate. }
  destruct Hedges as [Hf Hl].
  exact (wrap_first (length (normalize_ws text)) w ph (normalize_ws text) _
           (Hcat _) (Hne _) Hf Hl Hw Hph).
Qed.

Lemma ws_runs_go_concat : forall s cur b, concat (ws_runs_go s cur b) = rev cur ++ s.
Proof.
  induction s as [|c s IH]; intros cur b; cbn [ws_runs_go].
  - destruct cur; cbn; [reflexivity|]. rewrite !app_nil_r. reflexivity.
  - destruct (Bool.eqb (tw_ws c) b).
    + rewrite IH. cbn [rev]. rewrite <- app_assoc. reflexivity.
    + destruct cur as [|a cur].
      * rewrite IH. reflexivity.
      * cbn [concat]. rewrite IH. reflexivity.
Qed.

Lemma ws_runs_go_nonempty : forall s cur b,
  Forall (fun c => c <> []) (ws_runs_go s cur b).
Proof.
  induction s as [|c s IH]; intros cur b; cbn [ws_runs_go].
  - destruct cur as [|a cur]; [constructor|]. constructor; [|constructor].
    intro E. apply (f_equal (@length Z)) in E. rewrite length_rev in E. discriminate E.
  - destruct (Bool.eqb (tw_ws c) b); [apply IH|].
    destruct cur as [|a cur]; [apply IH|]. constructor; [|apply IH].
    intro E. apply (f_equal (@length Z)) in E. rewrite length_rev in E. discriminate E.
Qed.

(** ** The text embedded in a failure message *)

Lemma ind_clear_lines : forall s,
  rs_stdout (ind_clear s) = rs_stdout s /\ rs_lines (ind_clear s) = rs_lines s.
Proof.
  intros s. unfold ind_clear. destruct (rs_ind s) as [i|]; [|split; reflexivity].
  destruct (ind_shown i); split; reflexivity.
Qed.

Lemma ind_wakes_lines : forall ts s,
  rs_stdout (ind_wakes s ts) = rs_stdout s /\ rs_lines (ind_wakes s ts) = rs_lines s.
Proof.
  induction ts as [|t ts IH]; intros s; [split; reflexivity|].
  unfold ind_wakes in *. cbn [fold_left]. rewrite !(proj1 (IH _)), !(proj2 (IH _)).
  unfold ind_wake. destruct (rs_ind s) as [i|]; [|split; reflexivity].
  destruct (Qltb _ _); [apply ind_clear_lines|].
  destruct (pl_render _ _ _); split; reflexivity.
Qed.

(** Every line of the streaming loop is written to [sys.stdout] and kept in
    [out_lines] alike. *)
Lemma stream_loop_lines : forall w d ts s e s',
  stream_loop w d ts s = Some (e, s') -> rs_stdout s = rs_lines s ->
  rs_stdout s' = rs_lines s'.
Proof.
  intros w d. induction ts as [|tk ts IH]; intros s e s' H Hs; [discriminate|].
  cbn [stream_loop] in H.
  assert (Hw : rs_stdout (ind_wakes s (tk_wakes tk)) = rs_lines (ind_wakes s (tk_wakes tk)))
    by (rewrite (proj1 (ind_wakes_lines _ _)), (proj2 (ind_wakes_lines _ _)); exact Hs).
  destruct (deadline_reached d (tk_now tk)); [injection H as _ <-; exact Hw|].
  destruct (tk_get tk) as [l| |].
  - apply IH in H; [exact H|]. unfold take_line. cbn [rs_stdout rs_lines].
    rewrite (proj1 (ind_clear_lines _)), (proj2 (ind_clear_lines _)), Hw. reflexivity.
  - injection H as _ <-. exact Hw.
  - destruct (Qle_bool _ _); [destruct (tk_late tk)|]; try (injection H as _ <-; exact Hw);
      eapply IH; eauto.
Qed.

Lemma embed_shorten : forall P text,
  (forall s, concat (tw_split P s) = s) -> (forall s, Forall (fun x => x <> []) (tw_split P s)) ->
  embedded_shape (tw_split P) text (shorten (tw_split P) text embed_limit default_placeholder).
Proof.
  intros P text Hc Hn. unfold embedded_shape.
  exact (shorten_spec (tw_split P) text embed_limit default_placeholder Hc Hn
           ltac:(unfold embed_limit; lia) ltac:(vm_compute; discriminate)).
Qed.

(** C2 (amended): when the command ran to a non-zero exit (the program
    started, was not killed, and the call raised a [RuntimeError]), the
    failure message is [명령 실행 실패: <cmd> (exit=<code>)] followed by a
    detail that is empty when the chosen output is blank, and otherwise a
    newline, the label, a newline and [shorten(text, width=2000)].  The text
    is [out_lines] joined and stripped when streaming; in capture mode it is
    the stripped stderr, or the stripped stdout when stderr is blank.  The
    embedded part has at most 2000 characters with the placeholder
    included; it is the collapsed text when that fits, and otherwise a
    non-empty prefix of the collapsed text followed by [" [...]"], or
    ["[...]"] alone, which happens only when the first chunk of the
    collapsed text is longer than 1994 characters. *)
Theorem failure_output_embedding : forall P pe c w o e,
  (forall s, concat (tw_split P s) = s) ->
  (forall s, Forall (fun x => x <> []) (tw_split P s)) ->
  run_command P pe c w = Some o -> ro_outcome o = Raised e -> exc_kind e = RuntimeError ->
  cmd c <> [] -> w_found w = true -> ro_killed o = false ->
  exists d label text, exc_msg e = failed_msg (cmd c) (w_code w) d /\
    (if stream_output c
     then label = u "stdout/stderr:" /\ text = py_strip (concat (ro_stdout o))
     else (py_strip (w_err w) <> [] /\ label = u "stderr:" /\ text = py_strip (w_err w)) \/
          (py_strip (w_err w) = [] /\ label = u "stdout:" /\ text = py_strip (w_out w))) /\
    ((text = [] /\ d = []) \/
     (text <> [] /\ exists r, d = NL ++ label ++ NL ++ r /\ embedded_shape (tw_split P) text r)).
Proof.
  intros P pe c w o e Hc Hn H He Hke Hcmd Hfound Hk.
  run_cases H; cbn [finish ro_outcome ro_killed ro_stdout] in *; try discriminate He;
    try congruence;
    try (rewrite stop_wakes_kill_killed in Hk; discriminate Hk);
    try (rewrite stop_kill_killed in Hk; discriminate Hk);
    try (apply subprocess_run_index in Hrun; contradiction);
    try (apply subprocess_run_start in Hrun; destruct Hrun as (_ & Hf' & _); congruence);
    try (injection He as <-; discriminate Hke).
  - (* streaming: [out_lines] joined, stripped and shortened *)
    injection He as <-.
    assert (Hs : rs_stdout (ind_stop (ind_wakes s (w_wakes w))) =
                 rs_lines (ind_stop (ind_wakes s (w_wakes w)))).
    { unfold ind_stop. rewrite (proj1 (ind_clear_lines _)), (proj2 (ind_clear_lines _)),
        (proj1 (ind_wakes_lines _ _)), (proj2 (ind_wakes_lines _ _)).
      exact (stream_loop_lines _ _ _ _ _ _ Hloop eq_refl). }
    rewrite Hs. unfold stream_detail.
    destruct (py_strip (concat (rs_lines (ind_stop (ind_wakes s (w_wakes w))))))
      as [|a t] eqn:Et.
    + exists [], (u "stdout/stderr:"), []. split; [reflexivity|]. auto.
    + eexists _, (u "stdout/stderr:"), (a :: t). split; [reflexivity|].
      split; [auto|]. right. split; [discriminate|]. eexists; split; [reflexivity|].
      apply embed_shorten; assumption.
  - (* capture mode: stderr, else stdout, stripped and shortened *)
    apply subprocess_run_failed in Hrun as (_ & _ & _ & _ & -> & _).
    injection He as <-. unfold quiet_detail.
    destruct (py_strip (w_err w)) as [|a t] eqn:Ee.
    + destruct (py_strip (w_out w)) as [|b t'] eqn:Eo.
      * exists [], (u "stdout:"), []. split; [reflexivity|]. auto.
      * eexists _, (u "stdout:"), (b :: t'). split; [reflexivity|].
        split; [auto|]. right. split; [discriminate|]. eexists; split; [reflexivity|].
        apply embed_shorten; assumption.
    + eexists _, (u "stderr:"), (a :: t). split; [reflexivity|].
      split; [left; split; [discriminate|auto]|]. right. split; [discriminate|].
      eexists; split; [reflexivity|]. apply embed_shorten; assumption.
Qed.

Lemma ws_runs_concat : forall s, concat (ws_runs s) = s.
Proof. intros s. exact (ws_runs_go_concat s [] false). Qed.

Lemma ws_runs_nonempty : forall s, Forall (fun x => x <> []) (ws_runs s).
Proof. intros s. exact (ws_runs_go_nonempty s [] false). Qed.

Lemma failure_output_embedding_witness :
  exists o, run_command sample_prims pe_pipe (c_done false) (w_done 1) = Some o /\
  exists e d, ro_outcome o = Raised e /\ exc_msg e = failed_msg (cmd (c_done false)) 1 d.
Proof.
  eval_run E.
  destruct (failure_output_embedding sample_prims pe_pipe _ _ _ _ ws_runs_concat
              ws_runs_nonempty E eq_refl eq_refl ltac:(discriminate) eq_refl eq_refl)
    as (d & _ & _ & Hd & _).
  eexists. exists d. split; [reflexivity | exact Hd].
Defined.

(** C2 counterexample: stderr of 2001 characters without a space is one
    word longer than the width; [shorten] cuts it at 2000 characters, the
    placeholder no longer fits after it, and the embedded text is ["[...]"]
    alone: neither 2000 characters long nor a prefix of the output. *)
Lemma embedded_output_not_prefix :
  exists o, run_command sample_prims pe_pipe c_fail_long w_fail_long = Some o /\
  exists e, ro_outcome o = Raised e /\
  exc_msg e = failed_msg (cmd c_fail_long) 1 (NL ++ u "stderr:" ++ NL ++ u "[...]") /\
  (2000 < length (w_err w_fail_long))%nat.
Proof.
  eval_run E. eexists. split; [reflexivity|].
  split; [vm_compute; reflexivity | vm_compute; lia].
Qed.

(** X1: in streaming mode, a line taken by the second [q.get(timeout=0.2)]
    (after [proc.poll()] saw the exit) is dropped by the [continue] that
    follows it: it is neither written to [sys.stdout] nor kept in
    [out_lines], and the call returns an empty [stdout]. *)
Lemma late_line_dropped :
  exists o, run_command sample_prims pe_pipe (c_done true) w_late_line = Some o /\
  ro_stdout o = [] /\
  ro_outcome o = Returned {| returncode := 0; stdout := []; stderr := [] |}.
Proof. eval_run E. split; reflexivity. Qed.

(** ** The indicator always blanks its line *)

Lemma zlen_clear_text : forall n, 0 <= n -> zlen (clear_text n) = n + 2.
Proof.
  intros n Hn. unfold clear_text, zlen. rewrite !length_app, repeat_length.
  cbn [length]. lia.
Qed.

Lemma pl_clear_pos : forall l, 0 < pl_last_len l -> pl_clear l = Some (clear_text (pl_last_len l)).
Proof.
  intros l H. unfold pl_clear. destruct (Z.leb_spec (pl_last_len l) 0); [lia|reflexivity].
Qed.

Lemma err_inv_clear : forall s, err_inv s ->
  err_inv (ind_clear s) /\ (forall i, rs_ind (ind_clear s) = Some i -> ind_shown i = false).
Proof.
  intros s H. unfold ind_clear. unfold err_inv in H.
  destruct (rs_ind s) as [i|] eqn:E.
  - destruct (ind_shown i) eqn:Sh.
    + destruct H as (H0 & Hpos & Hall & _). rewrite pl_clear_pos by auto.
      unfold err_inv, set_ind, with_line. cbn [rs_ind rs_err ind_line ind_shown].
      split; [|intros i' Hi; injection Hi as <-; reflexivity].
      split; [exact H0|]. split; [discriminate|]. split.
      * apply Forall_app. split; [exact Hall|]. constructor; [|constructor].
        rewrite zlen_clear_text by exact H0. lia.
      * intros _. right. eauto.
    + unfold err_inv. rewrite E, Sh. split; [exact H|].
      intros i' Hi. injection Hi as <-. exact Sh.
  - unfold err_inv. rewrite E. split; [exact H | discriminate].
Qed.

Lemma pl_render_len : forall l k e l' t, pl_render l k e = (l', t) ->
  pl_last_len l' = Z.max (pl_last_len l) (zlen t - 1) /\ 2 <= zlen t.
Proof.
  intros l k e l' t H. unfold pl_render in H. injection H as <- <-. cbn [pl_last_len].
  unfold zlen. cbn [length]. rewrite !length_app. cbn [length]. split; lia.
Qed.

Lemma err_inv_wake : forall s now, err_inv s -> err_inv (ind_wake s now).
Proof.
  intros s now H. unfold ind_wake. destruct (rs_ind s) as [i|] eqn:E; [|exact H].
  destruct (Qltb _ _); [apply err_inv_clear; exact H|].
  unfold err_inv in H. rewrite E in H. destruct H as (H0 & _ & Hall & _).
  destruct (pl_render (ind_line i) (ind_idx i) (now - ind_start i)%Q) as [l t] eqn:R.
  apply pl_render_len in R. destruct R as [Hl Ht].
  unfold err_inv, set_ind, with_line. cbn [rs_ind rs_err ind_line ind_shown]. rewrite Hl.
  split; [lia|]. split; [intros _; lia|]. split.
  - apply Forall_app. split.
    + eapply Forall_impl; [|exact Hall]. intros t' Hle. cbn beta in Hle. lia.
    + constructor; [|constructor]. lia.
  - discriminate.
Qed.

Lemma err_inv_wakes : forall ts s, err_inv s -> err_inv (ind_wakes s ts).
Proof.
  induction ts as [|t ts IH]; intros s H; [exact H|].
  unfold ind_wakes in *. cbn [fold_left]. apply IH, err_inv_wake, H.
Qed.

Lemma err_inv_kill : forall s, err_inv s -> err_inv (kill s).
Proof. intros s H. exact H. Qed.

Lemma err_inv_take_line : forall s l now, err_inv s -> err_inv (take_line s l now).
Proof. intros s l now H. exact (proj1 (err_inv_clear s H)). Qed.

Lemma err_inv_loop : forall w d ts s e s',
  stream_loop w d ts s = Some (e, s') -> err_inv s -> err_inv s'.
Proof.
  intros w d. induction ts as [|tk ts IH]; intros s e s' H Hs; [discriminate|].
  cbn [stream_loop] in H. pose proof (err_inv_wakes (tk_wakes tk) s Hs) as Hw.
  destruct (deadline_reached d (tk_now tk)); [injection H as _ <-; exact Hw|].
  destruct (tk_get tk) as [l| |].
  - eapply IH; [exact H|]. apply err_inv_take_line, Hw.
  - injection H as _ <-. exact Hw.
  - destruct (Qle_bool _ _); [destruct (tk_late tk)|]; try (injection H as _ <-; exact Hw);
      eapply IH; eauto.
Qed.

Lemma err_inv_init : forall t ind,
  err_inv (init_state t (option_map (fun g => new_indicator g t) ind)).
Proof.
  intros t [g|]; unfold err_inv; cbn; [|reflexivity].
  split; [lia|]. split; [discriminate|]. split; [constructor|]. intros _. left. reflexivity.
Qed.

Lemma err_inv_stop : forall s, err_inv s -> err_ends_clear (rs_err (ind_stop s)).
Proof.
  intros s H. destruct (err_inv_clear s H) as [H1 H2]. unfold ind_stop.
  unfold err_inv in H1. destruct (rs_ind (ind_clear s)) as [i|] eqn:E.
  - destruct H1 as (H0 & _ & Hall & Hf). destruct (Hf (H2 i eq_refl)) as [->|[p Hp]].
    + left. reflexivity.
    + right. exists p, (pl_last_len (ind_line i)). split; [exact Hp|].
      eapply Forall_impl; [|exact Hall]. intros t Ht. cbn beta in Ht.
      rewrite zlen_clear_text by exact H0. exact Ht.
  - left. exact H1.
Qed.

(** X2: whatever the schedule of the child and of the indicator thread,
    when [run_command] finishes the indicator has written nothing to
    [sys.stderr], or its last write there is a blanking line
    ["\r" + n spaces + "\r"] at least as long as every write before it: no
    progress frame is left on the terminal.  The only other exception
    reaching [sys.stderr] is that of the reader thread: exactly when a
    started streaming run has output that does not decode, its
    [UnicodeDecodeError] escapes the thread (whose traceback
    [threading.excepthook] prints), while the call itself goes on. *)
Theorem stderr_ends_blank : forall P pe c w o,
  run_command P pe c w = Some o ->
  err_ends_clear (ro_err o) /\
  ro_reader_exc o =
    match cmd c with
    | [] => None
    | _ => if stream_output c && w_found w then option_map decode_error (w_undecodable w)
           else None
    end.
Proof.
  intros P pe c w o H. run_cases H; cbn [finish ro_err ro_reader_exc]; split;
    try (first [ left; reflexivity
          | apply err_inv_stop;
            repeat match goal with
                   | |- err_inv (ind_wakes _ _) => apply err_inv_wakes
                   | |- err_inv (kill _) => apply err_inv_kill
                   | |- err_inv (init_state _ _) => apply err_inv_init
                   | H : stream_loop _ _ _ _ = Some (_, ?s) |- err_inv ?s =>
                       eapply err_inv_loop; [exact H|]
                   end ]; fail).
  all: try rewrite Hcmd; try rewrite Hmode; cbn [andb]; try reflexivity.
  all: try (destruct (cmd c); reflexivity).
  all: try (apply negb_true_iff in Hfound; rewrite Hfound; reflexivity).
  all: try (rewrite Hfound; reflexivity).
  all: destruct (w_found w); reflexivity.
Qed.

Lemma stderr_ends_blank_witness :
  exists o, run_command sample_prims pe_term (c_done true) (w_done 0) = Some o /\
  ro_err o <> [] /\ err_ends_clear (ro_err o).
Proof.
  eval_run E. split; [discriminate|]. exact (proj1 (stderr_ends_blank _ _ _ _ _ E)).
Defined.

(** ** What a returned result carries *)

(** X3: in streaming mode a returned [RunResult] carries as [stdout]
    exactly the text echoed to [sys.stdout], and an empty [stderr] (the
    child's stderr is merged into stdout); in capture mode nothing is
    echoed to [sys.stdout] and the result carries the captured streams. *)
Theorem returned_output_echo : forall P pe c w o r,
  run_command P pe c w = Some o -> ro_outcome o = Returned r ->
  if stream_output c then stdout r = concat (ro_stdout o) /\ stderr r = []
  else ro_stdout o = [] /\ stdout r = w_out w /\ stderr r = w_err w.
Proof.
  intros P pe c w o r H Hr. run_cases H; cbn [finish ro_outcome] in Hr;
    try discriminate Hr; injection Hr as <-; try rewrite Hmode;
    cbn [finish ro_stdout stdout stderr]; unfold ind_stop;
    rewrite (proj1 (ind_clear_lines _)), ?(proj2 (ind_clear_lines _)),
      (proj1 (ind_wakes_lines _ _)), ?(proj2 (ind_wakes_lines _ _)).
  - rewrite (stream_loop_lines _ _ _ _ _ _ Hloop eq_refl). split; reflexivity.
  - repeat split.
Qed.

Lemma returned_output_echo_witness :
  exists o, run_command sample_prims pe_term (c_done true) (w_done 0) = Some o /\
  exists r, ro_outcome o = Returned r /\ stdout r = concat (ro_stdout o) /\ stdout r <> [].
Proof.
  eval_run E.
  destruct (returned_output_echo _ _ _ _ _ _ E eq_refl) as [H1 _].
  eexists. split; [reflexivity|]. split; [exact H1 | discriminate].
Defined.

(** ** Environment overrides *)

(** X4: an environment override that is set always decides
    show-progress when the call passes none: any value other than [1],
    [true], [yes], [y], [on] (after [strip().lower()]) turns progress off,
    whatever the process-wide default.  A blank or unparseable idle or
    interval value is ignored instead, each on its own: the setting falls
    back to the process-wide default. *)
Theorem env_override_asymmetry : forall P pe c,
  (forall raw, show_progress c = None ->
     pe_environ pe (u "CLI_SHOW_PROGRESS") = Some raw ->
     existsb (pystr_eqb (py_lower (py_strip raw))) true_words = false ->
     s_show (effective_settings P pe c) = false) /\
  (forall r1, progress_idle_seconds c = None ->
     pe_environ pe (u "CLI_PROGRESS_IDLE_SECONDS") = Some r1 ->
     (py_strip r1 = [] \/ py_float P r1 = None) ->
     s_idle (effective_settings P pe c) = s_idle (pe_defaults pe)) /\
  (forall r2, progress_interval c = None ->
     pe_environ pe (u "CLI_PROGRESS_INTERVAL_SECONDS") = Some r2 ->
     (py_strip r2 = [] \/ py_float P r2 = None) ->
     s_interval (effective_settings P pe c) = s_interval (pe_defaults pe)).
Proof.
  intros P pe c.
  unfold effective_settings, progress_settings_from_env, parse_env_bool, parse_env_float.
  cbn [s_show s_idle s_interval e_show e_idle e_interval].
  split; [|split].
  - intros raw Hs Er Hr. rewrite Hs, Er, Hr. reflexivity.
  - intros r1 Hi E1 H1. rewrite Hi, E1.
    destruct H1 as [H1|H1]; destruct (py_strip r1); try discriminate; rewrite ?H1; reflexivity.
  - intros r2 Hv E2 H2. rewrite Hv, E2.
    destruct H2 as [H2|H2]; destruct (py_strip r2); try discriminate; rewrite ?H2; reflexivity.
Qed.

Lemma env_override_asymmetry_witness :
  s_show initial_defaults = true /\
  s_show (effective_settings sample_prims
            {| pe_environ := env_odd; pe_defaults := initial_defaults; pe_tty := true |}
            (default_call [u "true"] true)) = false /\
  s_idle (effective_settings sample_prims
            {| pe_environ := env_odd; pe_defaults := initial_defaults; pe_tty := true |}
            (default_call [u "true"] true)) = s_idle initial_defaults.
Proof.
  destruct (env_override_asymmetry sample_prims
            {| pe_environ := env_odd; pe_defaults := initial_defaults; pe_tty := true |}
            (default_call [u "true"] true)) as (H1 & H2 & _).
  split; [reflexivity|]. split.
  - apply (H1 (u "enabled") eq_refl eq_refl). vm_compute. reflexivity.
  - apply (H2 (u "  ") eq_refl eq_refl). left. vm_compute. reflexivity.
Defined.

(** ** The default progress message *)

(** X5: without a [spinner_message] (or with an empty one) the progress
    message is the command line with its whitespace collapsed when that
    fits in 72 characters; otherwise a prefix of it followed by […], or
    […] alone; it never exceeds 72 characters. *)
Theorem default_message_shape : forall P c,
  (forall s, concat (tw_split P s) = s) -> (forall s, Forall (fun x => x <> []) (tw_split P s)) ->
  spinner_message c = None \/ spinner_message c = Some [] ->
  let nt := normalize_ws (join_cmd (cmd c)) in
  let m := progress_message P c in
  zlen m <= 72 /\ (zlen nt <= 72 -> m = nt) /\
  (72 < zlen nt -> (exists p q, nt = p ++ q /\ m = p ++ u "…") \/ m = u "…").
Proof.
  intros P c Hc Hn Hm nt m.
  assert (Hd : m = default_progress_message P (cmd c))
    by (subst m; unfold progress_message; destruct Hm as [E|E]; rewrite E; reflexivity).
  rewrite Hd. unfold default_progress_message. subst nt.
  destruct (shorten_spec (tw_split P) (join_cmd (cmd c)) 72 (u "…") Hc Hn
              ltac:(lia) ltac:(vm_compute; discriminate)) as (H1 & H2 & H3).
  split; [exact H1|]. split; [exact H2|]. intros Hlt.
  destruct (H3 Hlt) as [(p & q & _ & Ep & Em) | (Em & _)]; [left; eauto | right].
  rewrite Em. reflexivity.
Qed.

Lemma default_message_shape_witness :
  zlen (join_cmd (cmd (default_call (repeat (u "gcloud") 12) false))) = 83 /\
  zlen (progress_message sample_prims (default_call (repeat (u "gcloud") 12) false)) <= 72.
Proof.
  split; [vm_compute; reflexivity|].
  exact (proj1 (default_message_shape sample_prims (default_call (repeat (u "gcloud") 12) false)
                  ws_runs_concat ws_runs_nonempty
                  (or_introl eq_refl))).
Defined.

(** ** The polling wait *)

(** ** The spinner *)

Lemma sp_run_app : forall s a b, sp_run s (a ++ b) = sp_run (sp_run s a) b.
Proof. intros. unfold sp_run. apply fold_left_app. Qed.

Lemma sp_ticks : forall n s k, sp_thread s = Some (Z.of_nat k) -> sp_stop s = false ->
  sp_run s (repeat SpTick n) =
  {| sp_message := sp_message s; sp_stop := false; sp_thread := Some (Z.of_nat (k + n));
     sp_err := sp_err s ++ map (fun i => sp_frame_text (sp_message s) (Z.of_nat i)) (seq k n) |}.
Proof.
  induction n as [|n IH]; intros [m st th er] k Ht Hs; cbn in Ht, Hs; subst.
  - cbn. rewrite Nat.add_0_r, app_nil_r. reflexivity.
  - cbn [repeat]. unfold sp_run. cbn [fold_left]. fold (sp_run (sp_step
      {| sp_message := m; sp_stop := false; sp_thread := Some (Z.of_nat k); sp_err := er |} SpTick)
      (repeat SpTick n)).
    cbn [sp_step sp_tick sp_thread sp_stop sp_message sp_err].
    rewrite (IH _ (S k)) by (cbn; try reflexivity; f_equal; lia).
    cbn [sp_message sp_err seq map]. rewrite <- app_assoc. cbn [app].
    replace (S k + n)%nat with (k + S n)%nat by lia. reflexivity.
Qed.

(** X7: [with Spinner(message):] around a body during which the thread
    makes [n] passes writes to [sys.stderr] exactly [n] frames
    ["\r<message> <frame>"], cycling through [|], [/], [-], [\], then
    the blank line ["\r" + (len(message) + 4) spaces + "\r"], which is
    longer than every frame written. *)
Theorem spinner_session_writes : forall message n,
  sp_err (spinner_session message n) =
    map (fun i => sp_frame_text message (Z.of_nat i)) (seq 0 n) ++ [sp_blank message] /\
  (forall i, nth (Z.to_nat (Z.of_nat i mod 4)) SPINNER_FRAMES [] =
             nth (i mod 4) SPINNER_FRAMES []) /\
  forall i, zlen (sp_frame_text message i) < zlen (sp_blank message).
Proof.
  intros message n. split; [|split].
  - unfold spinner_session.
    change (sp_run (new_spinner message) (SpStart :: repeat SpTick n ++ [SpStop])) with
      (sp_run (sp_start (new_spinner message)) (repeat SpTick n ++ [SpStop])).
    rewrite sp_run_app. rewrite (sp_ticks n _ 0) by reflexivity. reflexivity.
  - intros i. f_equal. rewrite <- (Nat2Z.id (i mod 4)), Nat2Z.inj_mod. reflexivity.
  - intros i. unfold sp_frame_text, sp_blank, zlen. rewrite !length_app, repeat_length.
    assert (Hf : forall j, (length (nth j SPINNER_FRAMES []) <= 1)%nat).
    { intros j. do 4 (destruct j as [|j]; [apply Nat.leb_le; vm_compute; reflexivity|]).
      destruct j; apply Nat.leb_le; vm_compute; reflexivity. }
    specialize (Hf (Z.to_nat (i mod zlen SPINNER_FRAMES))). unfold zlen in Hf.
    cbn [length]. lia.
Qed.

Lemma sp_after_stop : forall ops s, sp_stop s = true ->
  sp_stop (sp_run s ops) = true /\ sp_message (sp_run s ops) = sp_message s /\
  exists k, sp_err (sp_run s ops) = sp_err s ++ repeat (sp_blank (sp_message s)) k.
Proof.
  induction ops as [|op ops IH]; intros s Hs.
  - split; [exact Hs|]. split; [reflexivity|]. exists 0%nat. symmetry. apply app_nil_r.
  - unfold sp_run. cbn [fold_left]. fold (sp_run (sp_step s op) ops).
    destruct op; cbn [sp_step].
    + assert (Hs' : sp_stop (sp_start s) = true /\ sp_message (sp_start s) = sp_message s /\
                    sp_err (sp_start s) = sp_err s)
        by (unfold sp_start; destruct (sp_thread s); auto).
      destruct Hs' as (H1 & H2 & H3). destruct (IH _ H1) as (A & B & k & C).
      rewrite B, H2. split; [exact A|]. split; [reflexivity|]. exists k. rewrite C, H3, H2.
      reflexivity.
    + assert (Ht : sp_tick s = s)
        by (unfold sp_tick; destruct (sp_thread s); [rewrite Hs|]; reflexivity).
      rewrite Ht. exact (IH s Hs).
    + destruct (IH (sp_stop_ s) eq_refl) as (A & B & k & C). cbn [sp_message sp_stop_] in B, C.
      split; [exact A|]. split; [exact B|]. exists (S k). rewrite C. cbn [sp_err sp_stop_].
      rewrite <- app_assoc. reflexivity.
Qed.

(** X8: [Spinner.stop] is final: whatever is called afterwards (including
    [start] again) and however the thread is scheduled, no frame is written
    any more; the only later writes are further blank lines from repeated
    [stop] calls. *)
Theorem spinner_stop_final : forall message before after,
  exists k,
    sp_err (sp_run (new_spinner message) (before ++ SpStop :: after)) =
    sp_err (sp_run (new_spinner message) (before ++ [SpStop])) ++ repeat (sp_blank message) k.
Proof.
  intros message before after.
  assert (Hm : forall ops s, sp_message (sp_run s ops) = sp_message s).
  { induction ops as [|op ops IH]; intros s; [reflexivity|].
    unfold sp_run. cbn [fold_left]. fold (sp_run (sp_step s op) ops). rewrite IH.
    destruct op; cbn [sp_step]; [unfold sp_start; destruct (sp_thread s)|
                                 unfold sp_tick; destruct (sp_thread s); [destruct (sp_stop s)|]|];
      reflexivity. }
  rewrite (sp_run_app _ before (SpStop :: after)), (sp_run_app _ before [SpStop]).
  unfold sp_run at 1 3. cbn [fold_left sp_step].
  fold (sp_run (sp_stop_ (sp_run (new_spinner message) before)) after).
  destruct (sp_after_stop after (sp_stop_ (sp_run (new_spinner message) before)) eq_refl)
    as (_ & _ & k & E).
  exists k. rewrite E. cbn [sp_message sp_stop_]. rewrite Hm. reflexivity.
Qed.

(** ** The service environment and the deploy commands *)

Lemma pystr_eqb_true : forall a b, pystr_eqb a b = true <-> a = b.
Proof.
  intros a b. unfold pystr_eqb. destruct (list_eq_dec Z.eq_dec a b); split; intros H;
    first [reflexivity | assumption | discriminate | contradiction].
Qed.

Lemma pystr_eqb_false : forall a b, a <> b -> pystr_eqb a b = false.
Proof.
  intros a b H. destruct (pystr_eqb a b) eqn:E; [|reflexivity].
  apply pystr_eqb_true in E. contradiction.
Qed.

Lemma dict_set_new : forall d k v, ~ In k (map fst d) -> dict_set d k v = d ++ [(k, v)].
Proof.
  induction d as [|[k' v'] d IH]; intros k v H; [reflexivity|].
  cbn [dict_set map fst] in *. destruct (pystr_eqb k k') eqn:E.
  - apply pystr_eqb_true in E. subst. exfalso. apply H. left. reflexivity.
  - rewrite IH; [reflexivity|]. intro Hin. apply H. right. exact Hin.
Qed.

Lemma fold_env_filter : forall items acc, NoDup (map fst acc ++ map fst items) ->
  fold_left (fun env kv => if is_infra_key (fst kv) then env else dict_set env (fst kv) (snd kv))
    items acc = acc ++ filter (fun kv => negb (is_infra_key (fst kv))) items.
Proof.
  induction items as [|[k v] items IH]; intros acc H.
  - cbn. symmetry. apply app_nil_r.
  - cbn [fold_left fst snd filter map] in *. destruct (is_infra_key k); cbn [negb].
    + apply IH. exact (NoDup_remove_1 _ _ _ H).
    + rewrite dict_set_new.
      * rewrite IH; [rewrite <- app_assoc; reflexivity|].
        rewrite map_app, <- app_assoc. exact H.
      * intro Hin. apply (NoDup_remove_2 _ _ _ H). apply in_or_app. left. exact Hin.
Qed.

(** X9: when [backend_service_env] is a dict (its keys distinct),
    [_build_backend_env] keeps exactly its entries whose key is not one of
    the 28 infrastructure keys, in their original order; when it is [None]
    (or an empty dict) the environment is empty. *)
Theorem backend_env_filter : forall cfg,
  (forall items, backend_service_env cfg = Some items -> NoDup (map fst items) ->
     build_backend_env cfg = filter (fun kv => negb (is_infra_key (fst kv))) items) /\
  (backend_service_env cfg = None -> build_backend_env cfg = []).
Proof.
  intros cfg. split.
  - intros items He Hd. unfold build_backend_env. rewrite He.
    destruct items as [|kv items]; [reflexivity|].
    exact (fold_env_filter (kv :: items) [] Hd).
  - intros He. unfold build_backend_env. rewrite He. reflexivity.
Qed.

Lemma backend_env_filter_witness :
  build_backend_env sample_cfg = [(u "API_KEY", u "k1")].
Proof.
  rewrite (proj1 (backend_env_filter sample_cfg) _ eq_refl).
  - vm_compute. reflexivity.
  - apply NoDup_cons; [|apply NoDup_cons; [intros []|constructor]].
    intros [E|[]]. vm_compute in E. discriminate E.
Defined.

(** X10: the deploy commands do not escape commas in values: a single
    variable whose value contains [,K2=V2] gives the same
    [--set-env-vars] argument, hence the same [gcloud] command, as two
    separate variables. *)
Theorem env_arg_comma_collision : forall cfg url k1 v1 k2 v2,
  is_infra_key k1 = false -> is_infra_key k2 = false -> k1 <> k2 ->
  let e1 := Some [(k1, v1 ++ u "," ++ k2 ++ u "=" ++ v2)] in
  let e2 := Some [(k1, v1); (k2, v2)] in
  e1 <> e2 /\
  backend_deploy_cmd (with_service_env cfg e1) url =
    backend_deploy_cmd (with_service_env cfg e2) url /\
  etl_deploy_cmd (with_service_env cfg e1) url = etl_deploy_cmd (with_service_env cfg e2) url.
Proof.
  intros cfg url k1 v1 k2 v2 H1 H2 Hne e1 e2.
  assert (E : build_backend_env (with_service_env cfg e1) =
              [(k1, v1 ++ u "," ++ k2 ++ u "=" ++ v2)] /\
              build_backend_env (with_service_env cfg e2) = [(k1, v1); (k2, v2)]).
  { unfold build_backend_env, e1, e2. cbn [backend_service_env with_service_env fold_left fst snd].
    rewrite H1, H2. cbn [dict_set]. rewrite (pystr_eqb_false k2 k1) by congruence.
    split; reflexivity. }
  assert (A : env_arg (build_backend_env (with_service_env cfg e1)) =
              env_arg (build_backend_env (with_service_env cfg e2))).
  { destruct E as [-> ->]. unfold env_arg. cbn [map py_join fst snd].
    rewrite <- !app_assoc. reflexivity. }
  split; [unfold e1, e2; discriminate|].
  unfold backend_deploy_cmd, etl_deploy_cmd. rewrite A. split; reflexivity.
Qed.

Lemma env_arg_comma_collision_witness :
  backend_deploy_cmd (with_service_env sample_cfg (Some [(u "A", u "1,B=2")])) (u "img") =
  backend_deploy_cmd (with_service_env sample_cfg (Some [(u "A", u "1"); (u "B", u "2")])) (u "img").
Proof.
  exact (proj1 (proj2 (env_arg_comma_collision sample_cfg (u "img") (u "A") (u "1") (u "B") (u "2")
           ltac:(vm_compute; reflexivity) ltac:(vm_compute; reflexivity)
           ltac:(vm_compute; discriminate)))).
Defined.

(** ** [check_repository], [ensure_repository] and [build_and_push_image] *)

Lemma is_runtime_error_iff : forall e, is_runtime_error e = true <-> exc_kind e = RuntimeError.
Proof.
  intros e. unfold is_runtime_error. destruct (exc_kind e); split; intros H;
    first [reflexivity | discriminate H].
Qed.

(** An exception of [run_command] on a non-empty command is a
    [RuntimeError], or the [OSError] of an [exec] failing otherwise than
    with [ENOENT], or in capture mode a [UnicodeDecodeError]. *)
Lemma run_raised_kind : forall P pe c w o e,
  cmd c <> [] -> run_command P pe c w = Some o -> ro_outcome o = Raised e ->
  exc_kind e = RuntimeError \/
  (w_found w = false /\ w_start_err w <> ENOENT /\ e = os_error_exc (cmd c) (w_start_err w)) \/
  (stream_output c = false /\ w_found w = true /\
   exists m, w_undecodable w = Some m /\ e = decode_error m).
Proof.
  intros P pe c w o e Hc H He. run_cases H; cbn [finish ro_outcome] in He;
    try discriminate He; try contradiction;
    try (apply subprocess_run_index in Hrun; contradiction);
    injection He as <-; try (left; reflexivity).
  - destruct (w_start_err w); [left; reflexivity|..]; right; left;
      (split; [first [reflexivity | apply negb_true_iff; exact Hfound]|]);
      (split; [discriminate|reflexivity]).
  - apply subprocess_run_start in Hrun as (_ & Hf & ->).
    destruct (w_start_err w); [left; reflexivity|..]; right; left;
      (split; [exact Hf|]); (split; [discriminate|reflexivity]).
  - apply subprocess_run_decode in Hrun as (_ & Hf & _ & Hu). right; right. eauto.
Qed.

Lemma prefixb_app : forall a p q, prefixb a p = true -> prefixb a (p ++ q) = true.
Proof.
  induction a as [|x a IH]; intros [|y p] q H; cbn in *; try reflexivity; try discriminate.
  apply andb_prop in H. destruct H as [H1 H2]. rewrite H1, (IH _ _ H2). reflexivity.
Qed.

Lemma infixb_app_l : forall a p q, infixb a p = true -> infixb a (p ++ q) = true.
Proof.
  intros a. induction p as [|y p IH]; intros q H.
  - destruct a; [destruct q; reflexivity | discriminate].
  - cbn [app]. change (infixb a (y :: p ++ q)) with (prefixb a (y :: p ++ q) || infixb a (p ++ q)).
    change (infixb a (y :: p)) with (prefixb a (y :: p) || infixb a p) in H.
    apply orb_true_iff in H. apply orb_true_iff. destruct H as [H|H].
    + left. exact (prefixb_app a (y :: p) q H).
    + right. apply IH. exact H.
Qed.

Lemma infixb_skip : forall x a p q, ~ In x p -> infixb (x :: a) (p ++ q) = infixb (x :: a) q.
Proof.
  intros x a. induction p as [|y p IH]; intros q H; [reflexivity|].
  cbn [app]. change (infixb (x :: a) (y :: p ++ q)) with
    (prefixb (x :: a) (y :: p ++ q) || infixb (x :: a) (p ++ q)).
  cbn [prefixb]. replace (x =? y) with false.
  - cbn [andb orb]. apply IH. intro Hin. apply H. right. exact Hin.
  - symmetry. apply Z.eqb_neq. intro E. apply H. left. congruence.
Qed.

Lemma not_in_existsb : forall (x : Z) l, existsb (Z.eqb x) l = false -> ~ In x l.
Proof.
  intros x l H Hin. assert (T : existsb (Z.eqb x) l = true)
    by (apply existsb_exists; exists x; split; [exact Hin | apply Z.eqb_refl]).
  congruence.
Qed.

Lemma digits_rev_range : forall f n x, In x (digits_rev f n) -> 48 <= x <= 57.
Proof.
  induction f as [|f IH]; intros n x H; cbn [digits_rev] in H; [contradiction|].
  destruct H as [H|H].
  - subst. pose proof (Z.mod_pos_bound n 10 ltac:(lia)). lia.
  - destruct (n <? 10); [contradiction|]. exact (IH _ _ H).
Qed.

Lemma py_str_int_range : forall n x, In x (py_str_int n) -> x = 45 \/ 48 <= x <= 57.
Proof.
  intros n x H. unfold py_str_int in H. destruct (n <? 0).
  - destruct H as [H|H]; [left; lia|]. right. apply in_rev in H.
    try rewrite rev_involutive in H. exact (digits_rev_range _ _ _ H).
  - right. apply in_rev in H. try rewrite rev_involutive in H. exact (digits_rev_range _ _ _ H).
Qed.

Lemma check_cmd_nonempty : forall cfg, cmd (check_call cfg) <> [].
Proof. intros cfg. discriminate. Qed.

Lemma check_run : forall P pe cfg w,
  run_command P pe (check_call cfg) w =
  Some (run_quiet P (check_call cfg) w
          (s_show (effective_settings P pe (check_call cfg)) && pe_tty pe)
          (indicator_args P (check_call cfg) (effective_settings P pe (check_call cfg)))).
Proof. reflexivity. Qed.

(** X11: [check_repository] turns every [RuntimeError] of the describe
    call into a line and lets any other exception through.  A describe that
    returned gives the "리포지토리 존재함" line; a missing [gcloud]
    ([ENOENT]) gives the "상태 확인 불가" line; a [RuntimeError] gives one
    of these or the "리포지토리 없음" line.  It raises exactly when the
    describe call raised something else than a [RuntimeError]: the
    [OSError] of an [exec] failing otherwise than with [ENOENT] (such as
    [PermissionError]), or the [UnicodeDecodeError] of an undecodable
    output; never a [ValueError]. *)
Theorem check_repository_result : forall P pe cfg w o r,
  check_repository P pe cfg w = Some (o, r) ->
  ((exists x, ro_outcome o = Returned x) -> r = Ok (repo_exists_msg cfg)) /\
  (w_found w = false -> w_start_err w = ENOENT -> r = Ok gcloud_missing_msg) /\
  (forall e, r = Err (PyExc e) <-> ro_outcome o = Raised e /\ exc_kind e <> RuntimeError) /\
  (forall e, r = Err (PyExc e) ->
     (w_found w = false /\ w_start_err w <> ENOENT /\
      e = os_error_exc (cmd (check_call cfg)) (w_start_err w)) \/
     (w_found w = true /\ exists m, w_undecodable w = Some m /\ e = decode_error m)) /\
  (forall m, r <> Err (ValueError m)) /\
  (r = Ok (repo_exists_msg cfg) \/ r = Ok gcloud_missing_msg \/ r = Ok (repo_missing_msg cfg) \/
   exists e, r = Err (PyExc e)).
Proof.
  intros P pe cfg w o r H. unfold check_repository in H.
  destruct (run_command P pe (check_call cfg) w) as [o'|] eqn:E; [|discriminate H].
  injection H as <- <-. split; [|split; [|split; [|split; [|split]]]].
  - intros [x Hx]. rewrite Hx. reflexivity.
  - intros Hf Hen. rewrite check_run in E. injection E as <-.
    assert (Hs : subprocess_run (check_call cfg) w = RunStartError ENOENT)
      by (unfold subprocess_run; cbn [check_call run_call cmd check_describe_cmd describe_cmd app];
          rewrite Hf, Hen; reflexivity).
    unfold run_quiet. cbv zeta. rewrite Hs. cbn [finish ro_outcome is_runtime_error runtime_error
      start_failure exc_kind exc_msg]. unfold not_found_msg.
    rewrite infixb_app_l by (vm_compute; reflexivity). reflexivity.
  - intros e. destruct (ro_outcome o') as [x|e'] eqn:Eo.
    + split; [intros He; discriminate He | intros [He _]; discriminate He].
    + unfold is_runtime_error. destruct (exc_kind e') eqn:Ek.
      * split; [destruct (infixb _ _); intros He; discriminate He|].
        intros [He Hk]. injection He as <-. contradiction.
      * split; [intros He; injection He as <-; split; [reflexivity|congruence]|].
        intros [He _]. injection He as <-. reflexivity.
      * split; [intros He; injection He as <-; split; [reflexivity|congruence]|].
        intros [He _]. injection He as <-. reflexivity.
      * split; [intros He; injection He as <-; split; [reflexivity|congruence]|].
        intros [He _]. injection He as <-. reflexivity.
      * split; [intros He; injection He as <-; split; [reflexivity|congruence]|].
        intros [He _]. injection He as <-. reflexivity.
      * split; [intros He; injection He as <-; split; [reflexivity|congruence]|].
        intros [He _]. injection He as <-. reflexivity.
      * split; [intros He; injection He as <-; split; [reflexivity|congruence]|].
        intros [He _]. injection He as <-. reflexivity.
      * split; [intros He; injection He as <-; split; [reflexivity|congruence]|].
        intros [He _]. injection He as <-. reflexivity.
      * split; [intros He; injection He as <-; split; [reflexivity|congruence]|].
        intros [He _]. injection He as <-. reflexivity.
  - intros e He. destruct (ro_outcome o') as [x|e'] eqn:Eo; [discriminate He|].
    unfold is_runtime_error in He.
    destruct (run_raised_kind _ _ _ _ _ _ (check_cmd_nonempty cfg) E Eo)
      as [Hk | [(Hf & Hen & He') | (_ & Hf & m & Hu & He')]].
    + rewrite Hk in He. destruct (infixb _ _); discriminate He.
    + destruct (exc_kind e'); try (destruct (infixb _ _); discriminate He);
        injection He as <-; left; auto.
    + destruct (exc_kind e'); try (destruct (infixb _ _); discriminate He);
        injection He as <-; right; eauto.
  - intros m. destruct (ro_outcome o'); [discriminate|].
    destruct (is_runtime_error e); [destruct (infixb _ _)|]; discriminate.
  - destruct (ro_outcome o'); [left; reflexivity|].
    destruct (is_runtime_error e); [destruct (infixb _ _)|]; eauto.
Qed.

Lemma check_repository_result_witness :
  exists o r, check_repository sample_prims pe_pipe sample_cfg w_denied = Some (o, r) /\
  exists e, r = Err (PyExc e) /\ exc_kind e <> RuntimeError.
Proof.
  destruct (check_repository sample_prims pe_pipe sample_cfg w_denied) as [[o r]|] eqn:E;
    [|vm_compute in E; discriminate E].
  exists o, r. split; [reflexivity|].
  pose proof E as E'. vm_compute in E'. injection E' as _ Er.
  eexists. split; [exact (eq_sym Er)|].
  destruct (check_repository_result _ _ _ _ _ _ E) as (_ & _ & H3 & _).
  exact (proj2 (proj1 (H3 _) (eq_sym Er))).
Defined.

(** X12: a describe call that runs past [gcloud_run_deploy_timeout_seconds]
    is killed and reported by [check_repository] as "리포지토리 없음 (생성이
    필요함)", like a missing repository, whenever the command line itself
    does not contain "찾을 수 없습니다". *)
Theorem check_repository_timeout_reports_missing : forall P pe cfg w,
  w_found w = true ->
  (w_started w + inject_Z (gcloud_run_deploy_timeout_seconds cfg) < w_exit w)%Q ->
  infixb (u "찾을 수 없습니다") (join_cmd (check_describe_cmd cfg)) = false ->
  exists o, check_repository P pe cfg w = Some (o, Ok (repo_missing_msg cfg)) /\
  ro_killed o = true /\ exists e, ro_outcome o = Raised e /\ exc_cause e = Some TimeoutExpired.
Proof.
  intros P pe cfg w Hf Ht Hn.
  assert (Hs : subprocess_run (check_call cfg) w = RunTimeout).
  { unfold subprocess_run, timed_out.
    cbn [check_call run_call cmd timeout check_describe_cmd describe_cmd app].
    rewrite Hf. cbn [negb int_timeout pf_val]. rewrite Qltb_true by exact Ht. reflexivity. }
  assert (Hi : infixb (u "찾을 수 없습니다")
                 (timeout_msg (timeout (check_call cfg)) (cmd (check_call cfg))) = false).
  { assert (Hph : u "찾을 수 없습니다" = 52286 :: tl (u "찾을 수 없습니다")) by reflexivity.
    rewrite Hph in Hn |- *. unfold timeout_msg.
    cbn [check_call run_call timeout cmd int_timeout py_str_opt_float pf_str].
    rewrite infixb_skip by (apply not_in_existsb; vm_compute; reflexivity).
    rewrite infixb_skip by (intro Hin; apply py_str_int_range in Hin; lia).
    rewrite infixb_skip by (apply not_in_existsb; vm_compute; reflexivity).
    exact Hn. }
  unfold check_repository. rewrite check_run. unfold run_quiet. cbv zeta. rewrite Hs.
  cbn [finish ro_outcome is_runtime_error runtime_error exc_kind exc_msg]. rewrite Hi.
  eexists. split; [reflexivity|]. split.
  - cbn [ro_killed]. apply stop_kill_killed.
  - eexists. split; reflexivity.
Qed.

Lemma check_repository_timeout_reports_missing_witness :
  exists o, check_repository sample_prims pe_term sample_cfg w_stuck =
            Some (o, Ok (repo_missing_msg sample_cfg)) /\ ro_killed o = true.
Proof.
  destruct (check_repository_timeout_reports_missing sample_prims pe_term sample_cfg w_stuck
              eq_refl ltac:(vm_compute; reflexivity) ltac:(vm_compute; reflexivity))
    as (o & E & K & _).
  exists o. split; [exact E | exact K].
Defined.

(** X13: [ensure_repository] runs the create command exactly when the
    describe command raised a [RuntimeError], whatever its reason
    (repository missing, a timeout, [gcloud] missing, any other non-zero
    exit); an exception of the create command is then what it raises.  Any
    other exception of the describe command (the [OSError] of an [exec]
    failing otherwise than with [ENOENT], or in capture mode a
    [UnicodeDecodeError]) propagates and the create command does not run. *)
Theorem ensure_repository_create_after_describe : forall P pe cfg w1 w2 rs r,
  ensure_repository P pe cfg w1 w2 = Some (rs, r) ->
  let t := gcloud_run_deploy_timeout_seconds cfg in
  let d := ar_call cfg t (describe_cmd cfg) (u "Artifact Registry 리포 확인 중") in
  let cc := ar_call cfg t (create_cmd cfg) (u "Artifact Registry 리포 생성 중") in
  exists o1, hd_error rs = Some (d, o1) /\
  ((exists x, ro_outcome o1 = Returned x) -> rs = [(d, o1)] /\ r = Ok tt) /\
  (forall e1, ro_outcome o1 = Raised e1 -> exc_kind e1 = RuntimeError ->
     exists o2, rs = [(d, o1); (cc, o2)] /\
       (r = Ok tt <-> exists x, ro_outcome o2 = Returned x) /\
       (forall e, r = Err e -> exists e2, ro_outcome o2 = Raised e2 /\ e = PyExc e2)) /\
  (forall e1, ro_outcome o1 = Raised e1 -> exc_kind e1 <> RuntimeError ->
     rs = [(d, o1)] /\ r = Err (PyExc e1) /\
     ((w_found w1 = false /\ w_start_err w1 <> ENOENT /\
       e1 = os_error_exc (describe_cmd cfg) (w_start_err w1)) \/
      (cli_stream_subprocess_output cfg = false /\ w_found w1 = true /\
       exists m, w_undecodable w1 = Some m /\ e1 = decode_error m))).
Proof.
  intros P pe cfg w1 w2 rs r H t d cc. unfold ensure_repository in H. cbv zeta in H.
  fold t d cc in H.
  destruct (run_command P pe d w1) as [o1|] eqn:E1; [|discriminate H].
  exists o1. destruct (ro_outcome o1) as [x|e1] eqn:Eo1.
  - injection H as <- <-. split; [reflexivity|]. split; [intros _; split; reflexivity|].
    split; intros e1 He; discriminate He.
  - destruct (is_runtime_error e1) eqn:Ek.
    + apply is_runtime_error_iff in Ek.
      destruct (run_command P pe cc w2) as [o2|] eqn:E2; [|discriminate H].
      injection H as <- <-. split; [reflexivity|]. split; [intros [x Hx]; discriminate Hx|].
      split; [|intros e He; injection He as <-; intros Hn; contradiction].
      intros e He _. injection He as <-. exists o2. split; [reflexivity|].
      destruct (ro_outcome o2) as [x|e2].
      * split; [split; [intros _; exists x; reflexivity | intros _; reflexivity]|].
        intros e He. discriminate He.
      * split; [split; [intros He; discriminate He | intros [x Hx]; discriminate Hx]|].
        intros e He. injection He as <-. exists e2. split; reflexivity.
    + assert (Hk : exc_kind e1 <> RuntimeError)
        by (intro Hk; apply is_runtime_error_iff in Hk; congruence).
      injection H as <- <-. split; [reflexivity|]. split; [intros [x Hx]; discriminate Hx|].
      split; [intros e He; injection He as <-; intros Hr; contradiction|].
      intros e He _. injection He as <-. split; [reflexivity|]. split; [reflexivity|].
      destruct (run_raised_kind P pe d w1 o1 e1 ltac:(discriminate) E1 Eo1)
        as [Hr | [Ho | (Hs & Hu)]]; [contradiction | left; exact Ho |].
      right. split; [exact Hs | exact Hu].
Qed.

Lemma ensure_repository_create_after_describe_witness :
  exists rs r, ensure_repository sample_prims pe_pipe sample_cfg (w_done 1) (w_done 0) = Some (rs, r) /\
  r = Ok tt /\ length rs = 2%nat.
Proof.
  destruct (ensure_repository sample_prims pe_pipe sample_cfg (w_done 1) (w_done 0))
    as [[rs r]|] eqn:E; [|vm_compute in E; discriminate E].
  exists rs, r. split; [reflexivity|].
  destruct (ensure_repository_create_after_describe _ _ _ _ _ _ _ E) as (o1 & Hd & _ & H2 & _).
  pose proof E as E'. vm_compute in E'. injection E' as <- <-. split; [reflexivity|].
  reflexivity.
Defined.

(** X14: [build_and_push_image] stops at the first command that fails: a
    returned URL is the image URL and every command run returned; a
    [run_command] exception is the last command's, every earlier one having
    returned (so [docker push] never runs after a failed [docker build]);
    and an unrecognised [backend_build_mode] raises [ValueError] before any
    command runs. *)
Theorem build_and_push_fail_fast : forall P pe cfg service context_dir w1 w2 rs r,
  build_and_push_image P pe cfg service context_dir w1 w2 = Some (rs, r) ->
  (forall url, r = Ok url -> url = image_url cfg service /\ rs <> [] /\ Forall returned rs) /\
  (forall e, r = Err (PyExc e) ->
     exists pre co, rs = pre ++ [co] /\ ro_outcome (snd co) = Raised e /\ Forall returned pre) /\
  (forall m, r = Err (ValueError m) ->
     rs = [] /\ m = backend_build_mode cfg /\
     build_mode cfg <> u "local_docker" /\ build_mode cfg <> u "cloud_build").
Proof.
  intros P pe cfg service context_dir w1 w2 rs r H. unfold build_and_push_image in H.
  cbv zeta in H.
  destruct (pystr_eqb (build_mode cfg) (u "local_docker")) eqn:Em.
  - match type of H with
    | match run_command P pe ?b w1 with _ => _ end = _ =>
        destruct (run_command P pe b w1) as [o1|] eqn:E1; [|discriminate H]
    end.
    destruct (ro_outcome o1) as [x1|e1] eqn:Eo1.
    + match type of H with
      | match run_command P pe ?p w2 with _ => _ end = _ =>
          destruct (run_command P pe p w2) as [o2|] eqn:E2; [|discriminate H]
      end.
      injection H as <- <-. destruct (ro_outcome o2) as [x2|e2] eqn:Eo2.
      * split; [|split; [intros e He; discriminate He | intros m Hm; discriminate Hm]].
        intros url Hu. injection Hu as <-. split; [reflexivity|]. split; [discriminate|].
        constructor; [exists x1; exact Eo1|]. constructor; [exists x2; exact Eo2|constructor].
      * split; [intros url Hu; discriminate Hu|].
        split; [|intros m Hm; discriminate Hm].
        intros e He. injection He as <-. eexists [_], _. split; [reflexivity|].
        split; [exact Eo2|]. constructor; [exists x1; exact Eo1|constructor].
    + injection H as <- <-. split; [intros url Hu; discriminate Hu|].
      split; [|intros m Hm; discriminate Hm].
      intros e He. injection He as <-. eexists [], (_, o1). split; [reflexivity|].
      split; [exact Eo1 | constructor].
  - destruct (pystr_eqb (build_mode cfg) (u "cloud_build")) eqn:Em2.
    + match type of H with
      | match run_command P pe ?b w1 with _ => _ end = _ =>
          destruct (run_command P pe b w1) as [o1|] eqn:E1; [|discriminate H]
      end.
      injection H as <- <-. destruct (ro_outcome o1) as [x1|e1] eqn:Eo1.
      * split; [|split; [intros e He; discriminate He | intros m Hm; discriminate Hm]].
        intros url Hu. injection Hu as <-. split; [reflexivity|]. split; [discriminate|].
        constructor; [exists x1; exact Eo1 | constructor].
      * split; [intros url Hu; discriminate Hu|].
        split; [|intros m Hm; discriminate Hm].
        intros e He. injection He as <-. eexists [], (_, o1). split; [reflexivity|].
        split; [exact Eo1 | constructor].
    + injection H as <- <-. split; [intros url Hu; discriminate Hu|].
      split; [intros e He; discriminate He|].
      intros m Hm. injection Hm as <-. split; [reflexivity|]. split; [reflexivity|].
      split; intro E; [rewrite E in Em | rewrite E in Em2];
        rewrite (proj2 (pystr_eqb_true _ _) eq_refl) in *; discriminate.
Qed.

Lemma build_and_push_fail_fast_witness :
  exists rs r, build_and_push_image sample_prims pe_pipe sample_cfg (u "backend") (u ".")
                 (w_done 1) (w_done 0) = Some (rs, r) /\
  length rs = 1%nat /\ exists e, r = Err (PyExc e).
Proof.
  destruct (build_and_push_image sample_prims pe_pipe sample_cfg (u "backend") (u ".")
              (w_done 1) (w_done 0)) as [[rs r]|] eqn:E; [|vm_compute in E; discriminate E].
  exists rs, r. split; [reflexivity|].
  destruct (build_and_push_fail_fast _ _ _ _ _ _ _ _ _ E) as (_ & H2 & _).
  pose proof E as E'. vm_compute in E'. injection E' as <- <-.
  split; [reflexivity|]. eexists. reflexivity.
Defined.
